(** * PayrollEditModal: a shallow embedding of
      src/components/payroll/PayrollEditModal.tsx

    The component is a React function component.  Its five [useState] cells
    are modelled as one record, its event handlers as functions on that
    record, and the callbacks it receives ([onSave], [onClose]) as outputs
    of a step function.  The parts of the JavaScript runtime the component
    calls are modelled in [Module JS]: what ECMA-262 fixes is written out
    ([parseInt], [parseFloat], the day and year arithmetic of [Date]); what
    it leaves to the implementation (time zone, locale formatting, the
    fallback grammar of [Date.parse]) is a field of [JS.Runtime]. *)

From Stdlib Require Import ZArith QArith List String Ascii Bool Lia.
From Stdlib Require Import Decimal DecimalPos DecimalString.
Import ListNotations.

#[local] Open Scope string_scope.
#[local] Open Scope Z_scope.

(* ================================================================== *)
(** * The JavaScript runtime                                           *)
(* ================================================================== *)

Module JS.

(** ** Strings *)

(** [s.split(sep)] for a one-character separator. *)
Fixpoint split (sep : ascii) (s : string) : list string :=
  match s with
  | EmptyString => [EmptyString]
  | String c rest =>
      match split sep rest with
      | [] => [String c EmptyString]
      | hd :: tl =>
          if Ascii.eqb c sep then EmptyString :: hd :: tl
          else String c hd :: tl
      end
  end.

(** [s.replace(a, b)] for one-character strings [a] and [b]: only the first
    occurrence is replaced. *)
Fixpoint replace (a b : ascii) (s : string) : string :=
  match s with
  | EmptyString => EmptyString
  | String c rest =>
      if Ascii.eqb c a then String b rest else String c (replace a b rest)
  end.

Fixpoint repeat_char (c : ascii) (n : nat) : string :=
  match n with
  | O => EmptyString
  | S k => String c (repeat_char c k)
  end.

(** [s.padStart(n, c)] for a one-character filler. *)
Definition padStart (n : nat) (c : ascii) (s : string) : string :=
  repeat_char c (n - String.length s) ++ s.

(** [s.slice(0, n)]. *)
Definition slice0 (n : nat) (s : string) : string := substring 0 n s.

(** Truthiness of a string: only the empty string is falsy. *)
Definition truthy_string (s : string) : bool :=
  match s with EmptyString => false | _ => true end.

(** [a || b] on strings. *)
Definition or_string (a b : string) : string :=
  if truthy_string a then a else b.

(** [String(n)] and [`${n}`] for an integer of magnitude below 10^21,
    which a Number prints with all its digits.  From 10^21 on the engine
    prints an exponent ("1e+21"), which this function does not: a theorem
    whose statement depends on the digits of an unbounded integer carries
    a bound on it. *)
Definition string_of_Z (n : Z) : string :=
  NilZero.string_of_int (Z.to_int n).

(** ** Lexical helpers of the numeric parsers *)

Definition is_digit (c : ascii) : bool :=
  let n := nat_of_ascii c in (48 <=? n)%nat && (n <=? 57)%nat.

Definition digit_val (c : ascii) : Z := Z.of_nat (nat_of_ascii c) - 48.

(** The ASCII part of StrWhiteSpaceChar: TAB, LF, VT, FF, CR, SP. *)
Definition is_space (c : ascii) : bool :=
  let n := nat_of_ascii c in
  ((9 <=? n)%nat && (n <=? 13)%nat) || (n =? 32)%nat.

Fixpoint trim_start (s : string) : string :=
  match s with
  | String c rest => if is_space c then trim_start rest else s
  | EmptyString => EmptyString
  end.

(** The longest prefix of decimal digits, and what follows it. *)
Fixpoint take_digits (s : string) : list Z * string :=
  match s with
  | String c rest =>
      if is_digit c
      then let (ds, tl) := take_digits rest in (digit_val c :: ds, tl)
      else ([], s)
  | EmptyString => ([], EmptyString)
  end.

Definition digits_value (ds : list Z) : Z :=
  fold_left (fun acc d => 10 * acc + d) ds 0.

(** An optional sign: [true] when it is a minus. *)
Definition take_sign (s : string) : bool * string :=
  match s with
  | String c rest =>
      if Ascii.eqb c "-" then (true, rest)
      else if Ascii.eqb c "+" then (false, rest)
      else (false, s)
  | EmptyString => (false, s)
  end.

Fixpoint has_digit (s : string) : bool :=
  match s with
  | EmptyString => false
  | String c rest => is_digit c || has_digit rest
  end.

(** [parseInt(s, 10)]; [None] is NaN. *)
Definition parseInt (s : string) : option Z :=
  let (neg, body) := take_sign (trim_start s) in
  match take_digits body with
  | ([], _) => None
  | (ds, _) => Some (if neg then - digits_value ds else digits_value ds)
  end.

(** ** Numbers

    A Number is NaN, an infinity or a finite value.  Finite values are kept
    as exact rationals: the rounding of IEEE doubles and the sign of zero
    are outside this model. *)
Inductive number : Type :=
| NaN
| Infinity (negative : bool)
| Fin (q : Q).

Definition zero : number := Fin 0.
Definition of_Z (n : Z) : number := Fin (inject_Z n).

(** Numeric equality, with NaN equal to itself (SameValueZero). *)
Definition num_eqb (a b : number) : bool :=
  match a, b with
  | NaN, NaN => true
  | Infinity s, Infinity s' => Bool.eqb s s'
  | Fin p, Fin q => Qeq_bool p q
  | _, _ => false
  end.

Definition num_eq (a b : number) : Prop := num_eqb a b = true.

(** [a + b].  On finite values this is the exact sum, without the rounding
    and the overflow of doubles: a theorem about the value of a finite sum
    is stated for integers small enough for the doubles to be exact. *)
Definition add (a b : number) : number :=
  match a, b with
  | NaN, _ | _, NaN => NaN
  | Infinity s, Infinity s' => if Bool.eqb s s' then Infinity s else NaN
  | Infinity s, Fin _ | Fin _, Infinity s => Infinity s
  | Fin p, Fin q => Fin (p + q)
  end.

(** [- a]. *)
Definition neg (a : number) : number :=
  match a with
  | NaN => NaN
  | Infinity s => Infinity (negb s)
  | Fin q => Fin (- q)
  end.

(** [a - b]. *)
Definition sub (a b : number) : number := add a (neg b).

(** [Math.max(a, b)]. *)
Definition max (a b : number) : number :=
  match a, b with
  | NaN, _ | _, NaN => NaN
  | Infinity false, _ | _, Infinity false => Infinity false
  | Infinity true, x | x, Infinity true => x
  | Fin p, Fin q => if Qle_bool p q then Fin q else Fin p
  end.

(** Truthiness of a number: NaN and zero are falsy. *)
Definition truthy (a : number) : bool :=
  match a with
  | NaN => false
  | Infinity _ => true
  | Fin q => negb (Qeq_bool q 0)
  end.

(** [a || b] on numbers. *)
Definition or_number (a b : number) : number := if truthy a then a else b.

(** [m * 10^e] as an exact rational. *)
Definition scale10 (m e : Z) : Q :=
  if 0 <=? e then inject_Z (m * 10 ^ e) else Qmake m (Z.to_pos (10 ^ (- e))).

(** The ExponentPart of a decimal literal: [e] or [E], an optional sign and
    at least one digit.  Without a digit there is no exponent part and the
    literal ends before the [e]. *)
Definition take_exponent (s : string) : Z :=
  match s with
  | String c rest =>
      if Ascii.eqb c "e" || Ascii.eqb c "E" then
        let (neg, body) := take_sign rest in
        match take_digits body with
        | ([], _) => 0
        | (ds, _) => if neg then - digits_value ds else digits_value ds
        end
      else 0
  | EmptyString => 0
  end.

(** [parseFloat(s)]: the longest prefix of the trimmed string that is a
    StrDecimalLiteral, NaN when there is none. *)
Definition parseFloat (s : string) : number :=
  let (neg, body) := take_sign (trim_start s) in
  if prefix "Infinity" body then Infinity neg else
  let (ip, after_ip) := take_digits body in
  let '(fp, after_fp) :=
    match after_ip with
    | String c rest =>
        if Ascii.eqb c "." then take_digits rest else ([], after_ip)
    | EmptyString => ([], after_ip)
    end in
  match ip, fp with
  | [], [] => NaN
  | _, _ =>
      let m := digits_value (ip ++ fp) in
      let e := take_exponent after_fp - Z.of_nat (List.length fp) in
      Fin (scale10 (if neg then - m else m) e)
  end.

(** ** Dates (ECMA-262, Date objects)

    A time value is a number of milliseconds since the epoch; an invalid
    date (time value NaN) is [None]. *)

Definition msPerDay : Z := 86400000.
Definition msPerHour : Z := 3600000.
Definition msPerMinute : Z := 60000.
Definition msPerSecond : Z := 1000.

Definition Day (t : Z) : Z := t / msPerDay.
Definition TimeWithinDay (t : Z) : Z := t mod msPerDay.

Definition DaysInYear (y : Z) : Z :=
  if negb (y mod 4 =? 0) then 365
  else if negb (y mod 100 =? 0) then 366
  else if negb (y mod 400 =? 0) then 365
  else 366.

Definition DayFromYear (y : Z) : Z :=
  365 * (y - 1970) + (y - 1969) / 4 - (y - 1901) / 100 + (y - 1601) / 400.

Definition TimeFromYear (y : Z) : Z := msPerDay * DayFromYear y.

(** The year of a day number: the largest [y] with [DayFromYear y <= d].
    The mean year length gives an estimate that is off by at most one. *)
Definition YearFromDay (d : Z) : Z :=
  let y0 := 1970 + (400 * d) / 146097 in
  if d <? DayFromYear y0 then y0 - 1
  else if DayFromYear (y0 + 1) <=? d then y0 + 1
  else y0.

Definition YearFromTime (t : Z) : Z := YearFromDay (Day t).

Definition InLeapYear (t : Z) : Z :=
  if DaysInYear (YearFromTime t) =? 366 then 1 else 0.

Definition DayWithinYear (t : Z) : Z := Day t - DayFromYear (YearFromTime t).

Definition MonthFromTime (t : Z) : Z :=
  let d := DayWithinYear t in
  let l := InLeapYear t in
  if d <? 31 then 0
  else if d <? 59 + l then 1
  else if d <? 90 + l then 2
  else if d <? 120 + l then 3
  else if d <? 151 + l then 4
  else if d <? 181 + l then 5
  else if d <? 212 + l then 6
  else if d <? 243 + l then 7
  else if d <? 273 + l then 8
  else if d <? 304 + l then 9
  else if d <? 334 + l then 10
  else 11.

(** The number of days of a year before its month [mn] (0 is January). *)
Definition DaysBeforeMonth (mn leap : Z) : Z :=
  nth (Z.to_nat mn) [0; 31; 59; 90; 120; 151; 181; 212; 243; 273; 304; 334] 0
  + (if 2 <=? mn then leap else 0).

Definition DateFromTime (t : Z) : Z :=
  DayWithinYear t - DaysBeforeMonth (MonthFromTime t) (InLeapYear t) + 1.

Definition HourFromTime (t : Z) : Z := (t / msPerHour) mod 24.
Definition MinFromTime (t : Z) : Z := (t / msPerMinute) mod 60.
Definition SecFromTime (t : Z) : Z := (t / msPerSecond) mod 60.
Definition msFromTime (t : Z) : Z := t mod msPerSecond.

(** MakeDay on integral arguments: months outside 0..11 carry into the
    year. *)
Definition MakeDay (year month date : Z) : Z :=
  let ym := year + month / 12 in
  let mn := month mod 12 in
  DayFromYear ym
  + DaysBeforeMonth mn (if DaysInYear ym =? 366 then 1 else 0)
  + date - 1.

Definition MakeDate (day time : Z) : Z := day * msPerDay + time.

Definition TimeClip (t : Z) : option Z :=
  if 8640000000000000 <? Z.abs t then None else Some t.

(** MakeFullYear: years 0..99 mean 1900..1999. *)
Definition MakeFullYear (y : Z) : Z :=
  if (0 <=? y) && (y <=? 99) then 1900 + y else y.

(** [Date.UTC(year, month, date)], the time of day left at 0. *)
Definition Date_UTC (year month date : Z) : option Z :=
  TimeClip (MakeDate (MakeDay (MakeFullYear year) month date) 0).

(** [n] written with at least [w] digits. *)
Definition pad_Z (w : nat) (n : Z) : string :=
  padStart w "0" (string_of_Z n).

(** [d.toISOString()] of a valid date: a four-digit year, or a sign and six
    digits outside 0..9999. *)
Definition toISOString (t : Z) : string :=
  let y := YearFromTime t in
  (if (0 <=? y) && (y <=? 9999) then pad_Z 4 y
   else (if y <? 0 then "-" else "+") ++ pad_Z 6 (Z.abs y))
  ++ "-" ++ pad_Z 2 (MonthFromTime t + 1)
  ++ "-" ++ pad_Z 2 (DateFromTime t)
  ++ "T" ++ pad_Z 2 (HourFromTime t)
  ++ ":" ++ pad_Z 2 (MinFromTime t)
  ++ ":" ++ pad_Z 2 (SecFromTime t)
  ++ "." ++ pad_Z 3 (msFromTime t) ++ "Z".

(** ** What the implementation decides

    [LocalTZA] is the offset of local time from UTC in milliseconds (a zone
    without daylight saving), [formatMonthYear y m] the text of
    [toLocaleString('default', { month: 'long', year: 'numeric' })] for
    year [y] and month index [m], [parseDate] the time value of
    [new Date(string)], and [numberToString] is [String(number)]. *)
Record Runtime : Type := {
  LocalTZA : Z;
  formatMonthYear : Z -> Z -> string;
  parseDate : string -> option Z;
  numberToString : number -> string
}.

(** [d.toLocaleString('default', { month: 'long', year: 'numeric',
    timeZone: 'UTC' })]. *)
Definition toLocaleStringUTC (rt : Runtime) (tv : option Z) : string :=
  match tv with
  | None => "Invalid Date"
  | Some t => formatMonthYear rt (YearFromTime t) (MonthFromTime t)
  end.

(** [d.toLocaleString('default', { month: 'long', year: 'numeric' })] of a
    valid date, in local time. *)
Definition toLocaleString (rt : Runtime) (t : Z) : string :=
  let lt := t + LocalTZA rt in
  formatMonthYear rt (YearFromTime lt) (MonthFromTime lt).

(** ** One implementation: V8 with the en-US locale *)

Module V8.

Definition monthNames : list string :=
  ["January"; "February"; "March"; "April"; "May"; "June"; "July";
   "August"; "September"; "October"; "November"; "December"].

(** ICU's pattern for this skeleton is the month name and the year of the
    era. *)
Definition formatMonthYear (y m : Z) : string :=
  nth (Z.to_nat m) monthNames "" ++ " "
  ++ string_of_Z (if y <=? 0 then 1 - y else y).

Definition lower (c : ascii) : ascii :=
  let n := nat_of_ascii c in
  if (65 <=? n)%nat && (n <=? 90)%nat then ascii_of_nat (n + 32) else c.

Fixpoint lowercase (s : string) : string :=
  match s with
  | EmptyString => EmptyString
  | String c rest => String (lower c) (lowercase rest)
  end.

(** A month name is recognised by its first three letters. *)
Definition monthIndex (word : string) : option Z :=
  let key := lowercase (substring 0 3 word) in
  let fix find (names : list string) (i : Z) : option Z :=
    match names with
    | [] => None
    | n :: rest =>
        if String.eqb (lowercase (substring 0 3 n)) key then Some i
        else find rest (i + 1)
    end in
  if (String.length word <? 3)%nat then None else find monthNames 0.

Fixpoint take_word (s : string) : string * string :=
  match s with
  | String c rest =>
      if is_space c || is_digit c then (EmptyString, s)
      else let (w, tl) := take_word rest in (String c w, tl)
  | EmptyString => (EmptyString, EmptyString)
  end.

(** The legacy parser of [Date.parse] on a month name followed by one
    number, as in "September 2025".  A number from 1 to 31 is the day of the
    month (the year is then 2001); any other number is the year, two-digit
    years meaning 2000..2049 and 1950..1999; the date is read in local
    time.  A string without any digit is not a date.  Other strings with
    digits are outside this grammar and are answered [None] here. *)
Definition parseDate (tza : Z) (s : string) : option Z :=
  if negb (has_digit s) then None else
  let (word, rest) := take_word (trim_start s) in
  match monthIndex word, take_digits (trim_start rest) with
  | Some mn, (d :: ds, EmptyString) =>
      let n := digits_value (d :: ds) in
      let '(year, day) :=
        if (1 <=? n) && (n <=? 31) then (2001, n)
        else if (0 <=? n) && (n <=? 49) then (2000 + n, 1)
        else if (50 <=? n) && (n <=? 99) then (1900 + n, 1)
        else (n, 1) in
      TimeClip (MakeDate (MakeDay year mn day) 0 - tza)
  | _, _ => None
  end.

(** The digits of a proper fraction [n/d], at most [fuel] of them. *)
Fixpoint frac_digits (fuel : nat) (n d : Z) : string :=
  match fuel with
  | O => EmptyString
  | S k =>
      if n =? 0 then EmptyString
      else string_of_Z (10 * n / d) ++ frac_digits k (10 * n mod d) d
  end.

(** [String(x)]: integers in full, other values by their decimal
    expansion (the exponent notation of very large and very small values
    is not modelled). *)
Definition numberToString (x : number) : string :=
  match x with
  | NaN => "NaN"
  | Infinity s => if s then "-Infinity" else "Infinity"
  | Fin q =>
      let n := Qnum q in
      let d := Zpos (Qden q) in
      let a := Z.abs n in
      (if n <? 0 then "-" else "")
      ++ string_of_Z (a / d)
      ++ (if a mod d =? 0 then "" else "." ++ frac_digits 30 (a mod d) d)
  end.

Definition runtime (tza : Z) : Runtime :=
  Build_Runtime tza formatMonthYear (parseDate tza) numberToString.

End V8.

End JS.

(* ================================================================== *)
(** * The component                                                    *)
(* ================================================================== *)

Module PayrollEditModal.

Import JS.

(** ** Data model *)

(** Modelled from the spec: the declarations [PayrollRecord] and [Employee]
    of ../../types, which is not among the sources.  The fields are the
    ones the component reads and writes; the status is Pending or Paid. *)
Inductive Status : Type := Pending | Paid.

Record PayrollRecord : Type := {
  id : string;
  employeeId : Z;
  month : string;
  basicSalary : number;
  allowances : number;
  deductions : number;
  netSalary : number;
  status : Status
}.

Record Employee : Type := {
  emp_id : Z;
  emp_name : string;
  emp_department : string
}.

(** The props, without the two callbacks: a call of [onSave] or [onClose]
    is an [Output] of the step function below. *)
Record Props : Type := {
  isOpen : bool;
  employees : list Employee;
  initialRecord : option PayrollRecord
}.

Inductive Output : Type :=
| onSave (r : PayrollRecord)
| onClose.

(** Object spread with one or two fields overridden. *)
Definition with_id (v : string) (r : PayrollRecord) : PayrollRecord :=
  {| id := v; employeeId := employeeId r; month := month r;
     basicSalary := basicSalary r; allowances := allowances r;
     deductions := deductions r; netSalary := netSalary r;
     status := status r |}.

Definition with_employeeId (v : Z) (r : PayrollRecord) : PayrollRecord :=
  {| id := id r; employeeId := v; month := month r;
     basicSalary := basicSalary r; allowances := allowances r;
     deductions := deductions r; netSalary := netSalary r;
     status := status r |}.

Definition with_month (v : string) (r : PayrollRecord) : PayrollRecord :=
  {| id := id r; employeeId := employeeId r; month := v;
     basicSalary := basicSalary r; allowances := allowances r;
     deductions := deductions r; netSalary := netSalary r;
     status := status r |}.

Definition with_basicSalary (v net : number) (r : PayrollRecord)
  : PayrollRecord :=
  {| id := id r; employeeId := employeeId r; month := month r;
     basicSalary := v; allowances := allowances r;
     deductions := deductions r; netSalary := net;
     status := status r |}.

Definition with_allowances (v net : number) (r : PayrollRecord)
  : PayrollRecord :=
  {| id := id r; employeeId := employeeId r; month := month r;
     basicSalary := basicSalary r; allowances := v;
     deductions := deductions r; netSalary := net;
     status := status r |}.

Definition with_deductions (v net : number) (r : PayrollRecord)
  : PayrollRecord :=
  {| id := id r; employeeId := employeeId r; month := month r;
     basicSalary := basicSalary r; allowances := allowances r;
     deductions := v; netSalary := net;
     status := status r |}.

Definition with_status (v : Status) (r : PayrollRecord) : PayrollRecord :=
  {| id := id r; employeeId := employeeId r; month := month r;
     basicSalary := basicSalary r; allowances := allowances r;
     deductions := deductions r; netSalary := netSalary r;
     status := v |}.

(** [emptyRecord]; [now] is the clock read by [Date.now()] and
    [new Date()]. *)
Definition emptyRecord (rt : Runtime) (now : Z)
    (employeeId : option Z) (month : option string) : PayrollRecord :=
  {| id := "payroll-new-" ++ string_of_Z now;
     employeeId := match employeeId with Some e => e | None => 0 end;
     month := match month with
              | Some m => m
              | None => toLocaleString rt now
              end;
     basicSalary := zero;
     allowances := zero;
     deductions := zero;
     netSalary := zero;
     status := Pending |}.

(** ** Component state: the five [useState] cells *)

Record State : Type := {
  record : PayrollRecord;
  basicInput : string;
  allowancesInput : string;
  deductionsInput : string;
  monthInput : string
}.

(** [setRecord] with an updater function; [setRecord(v)] is
    [setRecord (fun _ => v)]. *)
Definition setRecord (f : PayrollRecord -> PayrollRecord) (s : State)
  : State :=
  {| record := f (record s); basicInput := basicInput s;
     allowancesInput := allowancesInput s;
     deductionsInput := deductionsInput s; monthInput := monthInput s |}.

Definition setBasicInput (v : string) (s : State) : State :=
  {| record := record s; basicInput := v;
     allowancesInput := allowancesInput s;
     deductionsInput := deductionsInput s; monthInput := monthInput s |}.

Definition setAllowancesInput (v : string) (s : State) : State :=
  {| record := record s; basicInput := basicInput s;
     allowancesInput := v;
     deductionsInput := deductionsInput s; monthInput := monthInput s |}.

Definition setDeductionsInput (v : string) (s : State) : State :=
  {| record := record s; basicInput := basicInput s;
     allowancesInput := allowancesInput s;
     deductionsInput := v; monthInput := monthInput s |}.

Definition setMonthInput (v : string) (s : State) : State :=
  {| record := record s; basicInput := basicInput s;
     allowancesInput := allowancesInput s;
     deductionsInput := deductionsInput s; monthInput := v |}.

(** ** Month label and month value *)

(** [labelFromYm].  Nothing in its body throws on a string, so the [catch]
    branch has no counterpart; [y] and [m] are the first two parts, absent
    ones being [undefined]. *)
Definition labelFromYm (rt : Runtime) (now : Z) (ym : string) : string :=
  let parts := map parseInt (split "-" ym) in
  match nth_error parts 0, nth_error parts 1 with
  | Some (Some y), Some (Some m) =>
      if (y =? 0) || (m =? 0) then toLocaleString rt now
      else toLocaleStringUTC rt (Date_UTC y (m - 1) 1)
  | _, _ => toLocaleString rt now
  end.

(** [ymFromLabel]. *)
Definition ymFromLabel (rt : Runtime) (label : string) : string :=
  match parseDate rt label with
  | None => ""
  | Some dt =>
      let y := YearFromTime dt in
      let m := padStart 2 "0" (string_of_Z (MonthFromTime dt + 1)) in
      string_of_Z y ++ "-" ++ m
  end.

(** ** Draft initialisation: the body of the effect *)

Definition useEffect (rt : Runtime) (now : Z) (p : Props) (s : State)
  : State :=
  let init := match initialRecord p with
              | Some r => r
              | None => emptyRecord rt now None None
              end in
  let s1 := setRecord (fun _ => init) s in
  let s2 := setBasicInput
              (if truthy (basicSalary init)
               then numberToString rt (basicSalary init) else "") s1 in
  let s3 := setAllowancesInput
              (if truthy (allowances init)
               then numberToString rt (allowances init) else "") s2 in
  let s4 := setDeductionsInput
              (if truthy (deductions init)
               then numberToString rt (deductions init) else "") s3 in
  let initYm := or_string (ymFromLabel rt (month init))
                          (slice0 7 (toISOString now)) in
  setMonthInput initYm s4.

(** The initial values of the [useState] cells. *)
Definition useState (rt : Runtime) (now : Z) (p : Props) : State :=
  {| record := match initialRecord p with
               | Some r => r
               | None => emptyRecord rt now None None
               end;
     basicInput := ""; allowancesInput := ""; deductionsInput := "";
     monthInput := "" |}.

(** [employeeMap.get]: in a [Map] built from a list of entries a later
    entry replaces an earlier one with the same key. *)
Fixpoint employeeMap (es : list Employee) (k : Z) : option Employee :=
  match es with
  | [] => None
  | e :: rest =>
      match employeeMap rest k with
      | Some e' => Some e'
      | None => if emp_id e =? k then Some e else None
      end
  end.

Definition recomputeNet (basic allowances deductions : number) : number :=
  max zero (sub (add basic allowances) deductions).

(** ** Event handlers *)

(** [parseInt(v, 10) || 0]. *)
Definition parseInt_or_0 (v : string) : Z :=
  match parseInt v with
  | Some n => n
  | None => 0
  end.

(** [val === '' ? 0 : parseFloat(val) || 0]. *)
Definition amount_of_input (val : string) : number :=
  if String.eqb val "" then zero else or_number (parseFloat val) zero.

Definition onEmployeeChange (v : string) (s : State) : State :=
  setRecord (fun prev => with_employeeId (parseInt_or_0 v) prev) s.

Definition onMonthChange (rt : Runtime) (now : Z) (ym : string) (s : State)
  : State :=
  setRecord (fun prev => with_month (labelFromYm rt now ym) prev)
            (setMonthInput ym s).

Definition onBasicChange (val : string) (s : State) : State :=
  let basic := amount_of_input val in
  setRecord (fun prev =>
               with_basicSalary basic
                 (recomputeNet basic (allowances prev) (deductions prev))
                 prev)
            (setBasicInput val s).

Definition onAllowancesChange (val : string) (s : State) : State :=
  let allowances := amount_of_input val in
  setRecord (fun prev =>
               with_allowances allowances
                 (recomputeNet (basicSalary prev) allowances
                               (deductions prev))
                 prev)
            (setAllowancesInput val s).

Definition onDeductionsChange (val : string) (s : State) : State :=
  let deductions := amount_of_input val in
  setRecord (fun prev =>
               with_deductions deductions
                 (recomputeNet (basicSalary prev) (allowances prev)
                               deductions)
                 prev)
            (setDeductionsInput val s).

Definition onStatusChange (v : Status) (s : State) : State :=
  setRecord (fun prev => with_status v prev) s.

(** The [disabled] attribute of the Save button. *)
Definition saveDisabled (s : State) : bool :=
  (employeeId (record s) =? 0) || negb (truthy_string (monthInput s)).

(** The identifier given to a record created in the dialog. *)
Definition newId (employeeId : Z) (month : string) : string :=
  "payroll-" ++ string_of_Z employeeId ++ "-" ++ replace " " "-" month.

(** The click handler of the Save button. *)
Definition onSaveClick (p : Props) (s : State) : list Output :=
  let r := record s in
  if (employeeId r =? 0)
     || match employeeMap (employees p) (employeeId r) with
        | Some _ => false
        | None => true
        end
  then []
  else
    let id := match initialRecord p with
              | Some init => id init
              | None => newId (employeeId r) (month r)
              end in
    [onSave (with_id id r); onClose].

(** ** The component as a transition system *)

(** What a re-render does to the [initialRecord] prop: the same reference
    as before, or another value (another object, or null). *)
Inductive PropChange : Type :=
| SameRecord
| NewRecord (r : option PayrollRecord).

Inductive Event : Type :=
| Rerender (isOpen' : bool) (employees' : list Employee)
           (initialRecord' : PropChange)
| Tick (now' : Z)
| EmployeeChange (v : string)
| MonthChange (ym : string)
| BasicChange (val : string)
| AllowancesChange (val : string)
| DeductionsChange (val : string)
| StatusChange (v : Status)
| SaveClick
| CancelClick.

Record Model : Type := {
  props : Props;
  state : State;
  now : Z
}.

(** Mounting: the cells take their initial values, then the effect runs. *)
Definition mount (rt : Runtime) (p : Props) (t : Z) : Model :=
  {| props := p; state := useEffect rt t p (useState rt t p); now := t |}.

(** The dependency array [initialRecord, isOpen], compared with
    [Object.is]. *)
Definition depsChanged (p : Props) (isOpen' : bool) (c : PropChange)
  : bool :=
  negb (Bool.eqb (isOpen p) isOpen')
  || match c with
     | SameRecord => false
     | NewRecord (Some _) => true
     | NewRecord None =>
         match initialRecord p with Some _ => true | None => false end
     end.

Definition newProps (p : Props) (isOpen' : bool) (es : list Employee)
    (c : PropChange) : Props :=
  {| isOpen := isOpen'; employees := es;
     initialRecord := match c with
                      | SameRecord => initialRecord p
                      | NewRecord r => r
                      end |}.

Definition update (m : Model) (f : State -> State) : Model * list Output :=
  ({| props := props m; state := f (state m); now := now m |}, []).

(** One event.  While [isOpen] is false the component renders nothing, so
    no input event reaches it; a disabled Save button does not fire. *)
Definition step (rt : Runtime) (m : Model) (e : Event)
  : Model * list Output :=
  match e with
  | Rerender o es c =>
      let p' := newProps (props m) o es c in
      ({| props := p';
          state := if depsChanged (props m) o c
                   then useEffect rt (now m) p' (state m)
                   else state m;
          now := now m |}, [])
  | Tick t => ({| props := props m; state := state m; now := t |}, [])
  | _ =>
      if negb (isOpen (props m)) then (m, []) else
      match e with
      | EmployeeChange v => update m (onEmployeeChange v)
      | MonthChange ym => update m (onMonthChange rt (now m) ym)
      | BasicChange val => update m (onBasicChange val)
      | AllowancesChange val => update m (onAllowancesChange val)
      | DeductionsChange val => update m (onDeductionsChange val)
      | StatusChange v => update m (onStatusChange v)
      | SaveClick =>
          if saveDisabled (state m) then (m, [])
          else (m, onSaveClick (props m) (state m))
      | CancelClick => (m, [onClose])
      | _ => (m, [])
      end
  end.

(** A sequence of events, with the callbacks made along the way. *)
Fixpoint run (rt : Runtime) (m : Model) (es : list Event)
  : Model * list Output :=
  match es with
  | [] => (m, [])
  | e :: rest =>
      let (m1, o1) := step rt m e in
      let (m2, o2) := run rt m1 rest in
      (m2, (o1 ++ o2)%list)
  end.

(** The models the component can be in. *)
Definition reachable (rt : Runtime) (m : Model) : Prop :=
  exists p t es, m = fst (run rt (mount rt p t) es).

End PayrollEditModal.

(* ================================================================== *)
(** * Concrete runtimes, records and props used in the examples        *)
(* ================================================================== *)

Module Examples.

Import JS PayrollEditModal.

(** V8 in UTC and in India Standard Time (UTC+05:30). *)
Definition utc : Runtime := V8.runtime 0.
Definition ist : Runtime := V8.runtime 19800000.

(** 2026-11-02T01:14:56.123Z. *)
Definition clock : Z := 1793582096123.

Definition asha : Employee :=
  {| emp_id := 7; emp_name := "Asha"; emp_department := "Finance" |}.

(** A stored record whose net salary is not the one its amounts give. *)
Definition stale : PayrollRecord :=
  {| id := "payroll-7-September-2025"; employeeId := 7;
     month := "September 2025";
     basicSalary := of_Z 5000; allowances := of_Z 200;
     deductions := of_Z 100; netSalary := of_Z 1; status := Pending |}.

(** The same record with the net salary its amounts give. *)
Definition sound : PayrollRecord :=
  {| id := "payroll-7-September-2025"; employeeId := 7;
     month := "September 2025";
     basicSalary := of_Z 5000; allowances := of_Z 200;
     deductions := of_Z 100; netSalary := of_Z 5100; status := Paid |}.

(** A record whose month label is not a date. *)
Definition undated : PayrollRecord := with_month "unknown" sound.

(** A record without a month label. *)
Definition unlabelled : PayrollRecord := with_month "" sound.

Definition editing (r : PayrollRecord) : Props :=
  {| isOpen := true; employees := [asha]; initialRecord := Some r |}.

Definition creating : Props :=
  {| isOpen := true; employees := [asha]; initialRecord := None |}.

End Examples.

(* ================================================================== *)
(** * Properties                                                       *)
(* ================================================================== *)

Import JS PayrollEditModal.

(** The draft's net salary is the one its three amounts give. *)
Definition netConsistent (r : PayrollRecord) : Prop :=
  num_eq (netSalary r)
         (recomputeNet (basicSalary r) (allowances r) (deductions r)).

(** A re-render that hands over a record hands over a consistent one. *)
Definition suppliesConsistent (e : Event) : Prop :=
  match e with
  | Rerender _ _ (NewRecord (Some r)) => netConsistent r
  | _ => True
  end.

(** A re-render that hands over a record hands over a labelled one. *)
Definition suppliesLabelled (e : Event) : Prop :=
  match e with
  | Rerender _ _ (NewRecord (Some r)) => month r <> ""
  | _ => True
  end.

(** The caller keeps passing the record the dialog was opened with. *)
Definition keepsRecord (e : Event) : Prop :=
  match e with
  | Rerender _ _ (NewRecord _) => False
  | _ => True
  end.

(** ** Further predicates on events and strings *)

(** No employee is chosen and no existing record is handed over. *)
Definition leavesEmployeeUnset (e : Event) : Prop :=
  match e with
  | EmployeeChange _ => False
  | Rerender _ _ (NewRecord (Some _)) => False
  | _ => True
  end.

(** Any event but the clearing of the month picker. *)
Definition notClearingMonth (e : Event) : Prop :=
  match e with
  | MonthChange ym => ym <> ""
  | _ => True
  end.

(** The character [c] occurs in [s]. *)
Fixpoint mentions (c : ascii) (s : string) : bool :=
  match s with
  | EmptyString => false
  | String a rest => Ascii.eqb a c || mentions c rest
  end.

(** The values of the digits of a decimal numeral, first digit first. *)
Fixpoint uint_digits (d : Decimal.uint) : list Z :=
  match d with
  | Decimal.Nil => []
  | Decimal.D0 d => 0 :: uint_digits d
  | Decimal.D1 d => 1 :: uint_digits d
  | Decimal.D2 d => 2 :: uint_digits d
  | Decimal.D3 d => 3 :: uint_digits d
  | Decimal.D4 d => 4 :: uint_digits d
  | Decimal.D5 d => 5 :: uint_digits d
  | Decimal.D6 d => 6 :: uint_digits d
  | Decimal.D7 d => 7 :: uint_digits d
  | Decimal.D8 d => 8 :: uint_digits d
  | Decimal.D9 d => 9 :: uint_digits d
  end.

(** The result of a comparison of a net salary with zero: never below. *)
Definition nonNegative (x : number) : Prop :=
  match x with
  | NaN => True
  | Infinity negative => negative = false
  | Fin q => (0 <= q)%Q
  end.

(** An amount that is an integer of magnitude at most 2^53, which a
    Number holds exactly and [String] prints in full. *)
Definition safeInteger (x : number) : Prop :=
  exists n, x = of_Z n /\ Z.abs n <= 9007199254740992.

Definition safeAmounts (r : PayrollRecord) : Prop :=
  safeInteger (basicSalary r) /\ safeInteger (allowances r)
  /\ safeInteger (deductions r).

(** A re-render that hands over a record hands over one with such
    amounts. *)
Definition suppliesSafeAmounts (e : Event) : Prop :=
  match e with
  | Rerender _ _ (NewRecord (Some r)) => safeAmounts r
  | _ => True
  end.

(** The text of each monetary input parses to the amount in the draft. *)
Definition inputsAgree (s : State) : Prop :=
  amount_of_input (basicInput s) = basicSalary (record s)
  /\ amount_of_input (allowancesInput s) = allowances (record s)
  /\ amount_of_input (deductionsInput s) = deductions (record s).

(** Any event but a re-render by the caller. *)
Definition notRerender (e : Event) : Prop :=
  match e with
  | Rerender _ _ _ => False
  | _ => True
  end.

(** A keystroke in one of the three monetary inputs. *)
Definition amountEdit (e : Event) : Prop :=
  match e with
  | BasicChange _ | AllowancesChange _ | DeductionsChange _ => True
  | _ => False
  end.

(** Case analysis on a month index known to lie in 0..11. *)
Ltac month_cases mn H :=
  assert (mn = 0 \/ mn = 1 \/ mn = 2 \/ mn = 3 \/ mn = 4 \/ mn = 5 \/ mn = 6
          \/ mn = 7 \/ mn = 8 \/ mn = 9 \/ mn = 10 \/ mn = 11) as H by lia;
  repeat destruct H as [H | H]; subst mn.

(** ** The runtime model *)

Lemma num_eq_refl (a : number) : num_eq a a.
Proof.
  destruct a as [| s | q]; unfold num_eq; simpl.
  - reflexivity.
  - now destruct s.
  - apply Qeq_bool_iff. reflexivity.
Qed.

(** [YearFromDay] is the year ECMA-262 asks for: the year whose first day
    is the last one not after [d]. *)
Lemma YearFromDay_spec (d : Z) :
  DayFromYear (YearFromDay d) <= d < DayFromYear (YearFromDay d + 1).
Proof.
  unfold YearFromDay, DayFromYear.
  repeat match goal with
         | |- context [if ?b then _ else _] => destruct b eqn:?
         end;
    Z.to_euclidean_division_equations; lia.
Qed.

Lemma DayFromYear_mono (a b : Z) : a <= b -> DayFromYear a <= DayFromYear b.
Proof.
  unfold DayFromYear. intros H.
  Z.to_euclidean_division_equations; lia.
Qed.

Lemma YearFromDay_unique (y d : Z) :
  DayFromYear y <= d < DayFromYear (y + 1) -> YearFromDay d = y.
Proof.
  intros [Hlo Hhi].
  destruct (YearFromDay_spec d) as [Glo Ghi].
  destruct (Z.lt_trichotomy (YearFromDay d) y) as [Hlt | [Heq | Hgt]].
  - pose proof (DayFromYear_mono (YearFromDay d + 1) y ltac:(lia)). lia.
  - exact Heq.
  - pose proof (DayFromYear_mono (y + 1) (YearFromDay d) ltac:(lia)). lia.
Qed.

Lemma DaysInYear_cases (y : Z) : DaysInYear y = 365 \/ DaysInYear y = 366.
Proof.
  unfold DaysInYear.
  repeat match goal with
         | |- context [if ?b then _ else _] => destruct b
         end; auto.
Qed.

Lemma leap_step_4 (y : Z) :
  (y + 1 - 1969) / 4 = (y - 1969) / 4 + (if y mod 4 =? 0 then 1 else 0).
Proof.
  destruct (Z.eqb_spec (y mod 4) 0); Z.to_euclidean_division_equations; lia.
Qed.

Lemma leap_step_100 (y : Z) :
  (y + 1 - 1901) / 100
  = (y - 1901) / 100 + (if y mod 100 =? 0 then 1 else 0).
Proof.
  destruct (Z.eqb_spec (y mod 100) 0); Z.to_euclidean_division_equations; lia.
Qed.

Lemma leap_step_400 (y : Z) :
  (y + 1 - 1601) / 400
  = (y - 1601) / 400 + (if y mod 400 =? 0 then 1 else 0).
Proof.
  destruct (Z.eqb_spec (y mod 400) 0); Z.to_euclidean_division_equations; lia.
Qed.

Lemma centuries_are_multiples (y : Z) :
  (y mod 100 = 0 -> y mod 4 = 0) /\ (y mod 400 = 0 -> y mod 100 = 0).
Proof. split; intros H; Z.to_euclidean_division_equations; lia. Qed.

Lemma DayFromYear_succ (y : Z) :
  DayFromYear (y + 1) = DayFromYear y + DaysInYear y.
Proof.
  unfold DayFromYear, DaysInYear.
  rewrite leap_step_4, leap_step_100, leap_step_400.
  destruct (centuries_are_multiples y) as [H100 H400].
  destruct (Z.eqb_spec (y mod 4) 0), (Z.eqb_spec (y mod 100) 0),
    (Z.eqb_spec (y mod 400) 0); cbv beta iota delta [negb]; lia.
Qed.

Lemma Day_MakeDate (d k : Z) : 0 <= k < msPerDay -> Day (MakeDate d k) = d.
Proof.
  intros Hk. unfold Day, MakeDate, msPerDay in *.
  Z.to_euclidean_division_equations; lia.
Qed.

(** The fields of a time on day [c] of year [y]. *)
Lemma fields_of_day (t y c : Z) :
  Day t = DayFromYear y + c -> 0 <= c < DaysInYear y ->
  YearFromTime t = y /\ DayWithinYear t = c
  /\ InLeapYear t = (if DaysInYear y =? 366 then 1 else 0).
Proof.
  intros Hd Hc.
  assert (Hy : YearFromTime t = y).
  { unfold YearFromTime. apply YearFromDay_unique.
    rewrite DayFromYear_succ. lia. }
  unfold DayWithinYear, InLeapYear. rewrite Hy. repeat split. lia.
Qed.

Lemma MakeDay_first (y mn : Z) :
  0 <= mn <= 11 ->
  MakeDay y mn 1
  = DayFromYear y + DaysBeforeMonth mn (if DaysInYear y =? 366 then 1 else 0).
Proof.
  intros Hmn. unfold MakeDay.
  replace (mn / 12) with 0 by (Z.to_euclidean_division_equations; lia).
  replace (mn mod 12) with mn by (Z.to_euclidean_division_equations; lia).
  rewrite Z.add_0_r. lia.
Qed.

Lemma first_of_month_fields (y mn k : Z) :
  0 <= mn <= 11 -> 0 <= k < msPerDay ->
  YearFromTime (MakeDate (MakeDay y mn 1) k) = y
  /\ MonthFromTime (MakeDate (MakeDay y mn 1) k) = mn.
Proof.
  intros Hmn Hk.
  set (t := MakeDate (MakeDay y mn 1) k).
  assert (Hday : Day t = MakeDay y mn 1) by now apply Day_MakeDate.
  rewrite MakeDay_first in Hday by assumption.
  destruct (fields_of_day t y _ Hday) as (Hy & Hw & Hl).
  { destruct (DaysInYear_cases y) as [E | E]; rewrite E;
      month_cases mn H; vm_compute; split; congruence. }
  split; [exact Hy |].
  unfold MonthFromTime. rewrite Hw, Hl.
  destruct (DaysInYear y =? 366); month_cases mn H; reflexivity.
Qed.

Lemma eve_of_month_fields (y mn k : Z) :
  0 <= mn <= 11 -> 0 < k <= msPerDay ->
  YearFromTime (MakeDate (MakeDay y mn 1) 0 - k)
  = (if mn =? 0 then y - 1 else y)
  /\ MonthFromTime (MakeDate (MakeDay y mn 1) 0 - k)
     = (if mn =? 0 then 11 else mn - 1).
Proof.
  intros Hmn Hk.
  set (t := MakeDate (MakeDay y mn 1) 0 - k).
  assert (Hday : Day t = MakeDay y mn 1 - 1).
  { unfold t, Day, MakeDate, msPerDay in *.
    Z.to_euclidean_division_equations; lia. }
  rewrite MakeDay_first in Hday by assumption.
  destruct (Z.eqb_spec mn 0) as [-> | Hne].
  - assert (Hday' : Day t = DayFromYear (y - 1) + (DaysInYear (y - 1) - 1)).
    { rewrite Hday. pose proof (DayFromYear_succ (y - 1)) as S.
      replace (y - 1 + 1) with y in S by lia.
      destruct (DaysInYear y =? 366); unfold DaysBeforeMonth; simpl; lia. }
    destruct (fields_of_day t (y - 1) _ Hday') as (Hy & Hw & Hl).
    { destruct (DaysInYear_cases (y - 1)); lia. }
    split; [exact Hy |].
    unfold MonthFromTime. rewrite Hw, Hl.
    destruct (DaysInYear_cases (y - 1)) as [E | E]; rewrite E; reflexivity.
  - assert (Hday' : Day t = DayFromYear y
                    + (DaysBeforeMonth mn (if DaysInYear y =? 366 then 1 else 0) - 1))
      by lia.
    destruct (fields_of_day t y _ Hday') as (Hy & Hw & Hl).
    { destruct (DaysInYear_cases y) as [E | E]; rewrite E;
        month_cases mn H; try congruence; vm_compute; split; congruence. }
    split; [exact Hy |].
    unfold MonthFromTime. rewrite Hw, Hl.
    destruct (DaysInYear y =? 366); month_cases mn H; try congruence; reflexivity.
Qed.

(** The first character of a printed integer is a digit or a minus sign. *)
Lemma string_of_Z_head (n : Z) :
  exists c s, string_of_Z n = String c s /\ c <> "n"%char.
Proof.
  unfold string_of_Z, NilZero.string_of_int, NilZero.string_of_uint.
  destruct (Z.to_int n) as [d | d].
  - destruct d; simpl; eexists; eexists; (split; [reflexivity | discriminate]).
  - eexists; eexists; (split; [reflexivity | discriminate]).
Qed.

Lemma append_nonempty_l (a b : string) : a <> "" -> a ++ b <> "".
Proof. destruct a; [congruence | discriminate]. Qed.

Lemma append_nonempty_r (a b : string) : b <> "" -> a ++ b <> "".
Proof. destruct a; [intros H; exact H | discriminate]. Qed.

Lemma slice0_dash (a b : string) : slice0 7 (a ++ "-" ++ b) <> "".
Proof. destruct a; discriminate. Qed.

Lemma toISOString_nonempty (t : Z) : slice0 7 (toISOString t) <> "".
Proof. unfold toISOString. apply slice0_dash. Qed.

Lemma V8_formatMonthYear_nonempty (y m : Z) : V8.formatMonthYear y m <> "".
Proof.
  unfold V8.formatMonthYear.
  apply append_nonempty_r. discriminate.
Qed.

(** ** The transition system *)

Lemma employeeMap_Some (es : list Employee) (k : Z) (e : Employee) :
  employeeMap es k = Some e -> In e es /\ emp_id e = k.
Proof.
  induction es as [| a rest IH]; simpl; [discriminate |].
  destruct (employeeMap rest k) as [e' |].
  - intros [= <-]. destruct (IH eq_refl) as [Hin Hid]. auto.
  - destruct (emp_id a =? k) eqn:Hk; [| discriminate].
    intros [= <-]. split; [now left | now apply Z.eqb_eq].
Qed.

Lemma employeeMap_None (es : list Employee) (k : Z) :
  employeeMap es k = None -> forall e, In e es -> emp_id e <> k.
Proof.
  induction es as [| a rest IH]; simpl; [tauto |].
  destruct (employeeMap rest k) as [e' |]; [discriminate |].
  destruct (emp_id a =? k) eqn:Hk; [discriminate |].
  intros _ e [<- | Hin]; [now apply Z.eqb_neq | now apply IH].
Qed.

(** What a save, when one is made, was made from. *)
Lemma step_onSave (rt : Runtime) (m : Model) (e : Event) (r : PayrollRecord) :
  In (onSave r) (snd (step rt m e)) ->
  e = SaveClick
  /\ isOpen (props m) = true
  /\ saveDisabled (state m) = false
  /\ In (onSave r) (onSaveClick (props m) (state m)).
Proof.
  destruct e; simpl; try tauto;
    destruct (isOpen (props m)); simpl; try tauto.
  - destruct (saveDisabled (state m)); simpl; [tauto | auto].
  - intros [H | []]. discriminate.
Qed.

Lemma onSaveClick_onSave (p : Props) (s : State) (r : PayrollRecord) :
  In (onSave r) (onSaveClick p s) ->
  employeeId (record s) <> 0
  /\ (exists e, employeeMap (employees p) (employeeId (record s)) = Some e)
  /\ r = with_id (match initialRecord p with
                  | Some init => id init
                  | None => newId (employeeId (record s)) (month (record s))
                  end) (record s).
Proof.
  unfold onSaveClick.
  destruct (employeeId (record s) =? 0) eqn:Hz; simpl; [tauto |].
  destruct (employeeMap (employees p) (employeeId (record s))) as [e |];
    simpl; [| tauto].
  intros [[= <-] | [H | []]]; [| discriminate].
  apply Z.eqb_neq in Hz. repeat split; eauto.
Qed.

(** Saves and the draft along a run: an invariant of the model that every
    permitted event preserves holds at every save. *)
Lemma run_invariant (rt : Runtime) (I : Model -> Prop) (ok : Event -> Prop)
    (P : PayrollRecord -> Prop) :
  (forall m e, I m -> ok e -> I (fst (step rt m e))) ->
  (forall m e r, I m -> ok e -> In (onSave r) (snd (step rt m e)) -> P r) ->
  forall es m, I m -> Forall ok es ->
    I (fst (run rt m es))
    /\ forall r, In (onSave r) (snd (run rt m es)) -> P r.
Proof.
  intros Hstep Hsave.
  induction es as [| e rest IH]; intros m Hm Hok; simpl.
  - split; [exact Hm | tauto].
  - inversion Hok as [| ? ? He Hrest]; subst.
    specialize (Hstep m e Hm He). specialize (Hsave m e).
    destruct (step rt m e) as [m1 o1]. simpl in *.
    specialize (IH m1 Hstep Hrest).
    destruct (run rt m1 rest) as [m2 o2]. simpl in *.
    destruct IH as [IH1 IH2]. split; [exact IH1 |].
    intros r Hin. apply in_app_or in Hin as [Hin | Hin]; eauto.
Qed.

Lemma useEffect_record (rt : Runtime) (t : Z) (p : Props) (s : State) :
  record (useEffect rt t p s)
  = match initialRecord p with
    | Some r => r
    | None => emptyRecord rt t None None
    end.
Proof. reflexivity. Qed.

Lemma mount_record (rt : Runtime) (p : Props) (t : Z) :
  record (state (mount rt p t))
  = match initialRecord p with
    | Some r => r
    | None => emptyRecord rt t None None
    end.
Proof. reflexivity. Qed.

Lemma emptyRecord_netConsistent (rt : Runtime) (t : Z) (e : option Z)
    (mo : option string) : netConsistent (emptyRecord rt t e mo).
Proof. reflexivity. Qed.

(** Every event keeps the net salary of the draft consistent, provided the
    records that come in are. *)
Lemma step_netConsistent (rt : Runtime) (m : Model) (e : Event) :
  netConsistent (record (state m))
  /\ (forall r0, initialRecord (props m) = Some r0 -> netConsistent r0) ->
  suppliesConsistent e ->
  netConsistent (record (state (fst (step rt m e))))
  /\ (forall r0, initialRecord (props (fst (step rt m e))) = Some r0 ->
      netConsistent r0).
Proof.
  intros [Hd Hp] He.
  destruct e as [o es c | t | v | ym | val | val | val | v | |];
    simpl; try (split; assumption);
    try (destruct (isOpen (props m)); simpl; split; try assumption;
         apply num_eq_refl).
  - (* Rerender *)
    assert (Hp' : forall r0, initialRecord (newProps (props m) o es c) = Some r0
                             -> netConsistent r0).
    { destruct c as [| [r |]]; simpl in *; try assumption.
      - now intros r0 [= <-].
      - discriminate. }
    split; [| exact Hp'].
    destruct (depsChanged (props m) o c); [| assumption].
    rewrite useEffect_record.
    destruct (initialRecord (newProps (props m) o es c)) as [r |] eqn:Hr.
    + now apply Hp'.
    + apply emptyRecord_netConsistent.
  - (* SaveClick *)
    destruct (isOpen (props m)); simpl; [| split; assumption].
    destruct (saveDisabled (state m)); simpl; split; assumption.
Qed.

(** C1, as amended.  Every record handed to the save callback has
    netSalary equal to max(0, basicSalary + allowances - deductions),
    provided every record the caller supplied (at opening and at later
    re-renders) already satisfied that equation; the dialog recomputes the
    net salary on a keystroke in a monetary input only. *)
Theorem C1_saved_net_consistent
    (rt : Runtime) (p : Props) (t : Z) (es : list Event)
    (r : PayrollRecord) :
  (forall r0, initialRecord p = Some r0 -> netConsistent r0) ->
  Forall suppliesConsistent es ->
  In (onSave r) (snd (run rt (mount rt p t) es)) ->
  netConsistent r.
Proof.
  intros Hp Hes Hin.
  pose (I := fun m : Model =>
               netConsistent (record (state m))
               /\ (forall r0, initialRecord (props m) = Some r0 ->
                   netConsistent r0)).
  destruct (run_invariant rt I suppliesConsistent netConsistent) with
    (es := es) (m := mount rt p t) as [_ Hsaves]; auto.
  - intros m e Hm He. now apply step_netConsistent.
  - intros m e r' [Hd _] _ Hsave.
    apply step_onSave in Hsave as (_ & _ & _ & Hsave).
    apply onSaveClick_onSave in Hsave as (_ & _ & ->).
    exact Hd.
  - split; [| exact Hp].
    rewrite mount_record. destruct (initialRecord p) as [r0 |].
    + now apply Hp.
    + apply emptyRecord_netConsistent.
Qed.

(** C1, the claim as stated, fails: opened on a stored record whose net
    salary is 1 for amounts 5000, 200 and 100, and saved without a
    keystroke, the dialog hands that record over as it is. *)
Lemma C1_counterexample :
  In (onSave Examples.stale)
     (snd (run Examples.utc
               (mount Examples.utc (Examples.editing Examples.stale)
                      Examples.clock)
               [SaveClick]))
  /\ ~ netConsistent Examples.stale.
Proof.
  split.
  - vm_compute. left. reflexivity.
  - vm_compute. discriminate.
Qed.

Lemma C1_witness :
  In (onSave (with_status Pending Examples.sound))
     (snd (run Examples.utc
               (mount Examples.utc (Examples.editing Examples.sound)
                      Examples.clock)
               [StatusChange Pending; SaveClick]))
  /\ netConsistent (with_status Pending Examples.sound).
Proof.
  assert (H : In (onSave (with_status Pending Examples.sound))
     (snd (run Examples.utc
               (mount Examples.utc (Examples.editing Examples.sound)
                      Examples.clock)
               [StatusChange Pending; SaveClick]))).
  { vm_compute. left. reflexivity. }
  split; [exact H |].
  apply (C1_saved_net_consistent Examples.utc
           (Examples.editing Examples.sound) Examples.clock
           [StatusChange Pending; SaveClick]).
  - intros r0 [= <-]. vm_compute. reflexivity.
  - repeat constructor.
  - exact H.
Defined.

(** The net salary is floored at zero: 5000 + 200 - 6000 gives 0. *)
Lemma recomputeNet_floors_at_zero :
  recomputeNet (of_Z 5000) (of_Z 200) (of_Z 6000) = zero
  /\ recomputeNet (of_Z 5000) (of_Z 200) (of_Z 100) = of_Z 5100.
Proof. split; vm_compute; reflexivity. Qed.

(** A keystroke in a monetary input makes the draft's net salary
    consistent, whatever it was before. *)
Lemma keystroke_restores_net (val : string) (s : State) :
  netConsistent (record (onBasicChange val s))
  /\ netConsistent (record (onAllowancesChange val s))
  /\ netConsistent (record (onDeductionsChange val s)).
Proof. repeat split; apply num_eq_refl. Qed.

(** C3.  The save callback is invoked only by a click on Save while the
    dialog is open, and only when the draft's employeeId is non-zero and is
    the id of an employee in the supplied list and the month picker value
    is non-empty; when either fails no event makes the call. *)
Theorem C3_save_needs_employee_and_month
    (rt : Runtime) (m : Model) (e : Event) (r : PayrollRecord) :
  In (onSave r) (snd (step rt m e)) ->
  e = SaveClick
  /\ isOpen (props m) = true
  /\ employeeId (record (state m)) <> 0
  /\ (exists emp, In emp (employees (props m))
                  /\ emp_id emp = employeeId (record (state m)))
  /\ monthInput (state m) <> "".
Proof.
  intros Hin.
  apply step_onSave in Hin as (He & Hopen & Hdis & Hin).
  apply onSaveClick_onSave in Hin as (Hid & [emp Hemp] & _).
  apply employeeMap_Some in Hemp.
  unfold saveDisabled in Hdis. apply orb_false_elim in Hdis as [_ Hmonth].
  repeat split; auto.
  - now exists emp.
  - intros Hempty. rewrite Hempty in Hmonth. discriminate.
Qed.

Lemma C3_witness :
  let m := mount Examples.utc (Examples.editing Examples.sound)
                 Examples.clock in
  employeeId (record (state m)) <> 0 /\ monthInput (state m) <> "".
Proof.
  intros m.
  destruct (C3_save_needs_employee_and_month Examples.utc m SaveClick
              Examples.sound) as (_ & _ & Hid & _ & Hmonth).
  - vm_compute. left. reflexivity.
  - split; assumption.
Defined.



(** The events that leave the [initialRecord] prop alone leave it alone. *)
Lemma step_keeps_initialRecord (rt : Runtime) (m : Model) (e : Event) :
  keepsRecord e ->
  initialRecord (props (fst (step rt m e))) = initialRecord (props m).
Proof.
  destruct e as [o es [| r] | | | | | | | | |]; simpl; try tauto; intros _;
    try reflexivity;
    destruct (isOpen (props m)); simpl; try reflexivity.
  destruct (saveDisabled (state m)); reflexivity.
Qed.

(** C4.  When the dialog was opened with an existing record, the record
    passed to the save callback carries that record's identifier,
    whatever was edited in the dialog before the save. *)
Theorem C4_edit_keeps_identifier
    (rt : Runtime) (p : Props) (t : Z) (r0 : PayrollRecord)
    (es : list Event) (r : PayrollRecord) :
  initialRecord p = Some r0 ->
  Forall keepsRecord es ->
  In (onSave r) (snd (run rt (mount rt p t) es)) ->
  id r = id r0.
Proof.
  intros Hp Hes Hin.
  pose (I := fun m : Model => initialRecord (props m) = Some r0).
  destruct (run_invariant rt I keepsRecord (fun r => id r = id r0)) with
    (es := es) (m := mount rt p t) as [_ Hsaves]; auto.
  - intros m e Hm He. unfold I.
    now rewrite step_keeps_initialRecord.
  - intros m e r' Hm _ Hsave.
    apply step_onSave in Hsave as (_ & _ & _ & Hsave).
    apply onSaveClick_onSave in Hsave as (_ & _ & ->).
    unfold I in Hm. rewrite Hm. reflexivity.
Qed.

Lemma C4_witness :
  id (with_month "October 2025"
        (with_basicSalary (of_Z 6000) (of_Z 6100) Examples.sound))
  = id Examples.sound.
Proof.
  apply (C4_edit_keeps_identifier Examples.utc
           (Examples.editing Examples.sound) Examples.clock Examples.sound
           [BasicChange "6000"; MonthChange "2025-10"; SaveClick]).
  - reflexivity.
  - repeat constructor.
  - vm_compute. left. reflexivity.
Defined.

(** An identifier made by [newId] is not a placeholder identifier. *)
Lemma newId_not_placeholder (e : Z) (mo : string) (t : Z) :
  newId e mo <> "payroll-new-" ++ string_of_Z t.
Proof.
  unfold newId.
  destruct (string_of_Z_head e) as (c & s & -> & Hc).
  simpl. intros [= H _]. now apply Hc.
Qed.

(** While the dialog creates a record, the draft carries a placeholder
    identifier. *)
Lemma step_placeholder (rt : Runtime) (m : Model) (e : Event) :
  (initialRecord (props m) = None ->
   exists t, id (record (state m)) = "payroll-new-" ++ string_of_Z t) ->
  initialRecord (props (fst (step rt m e))) = None ->
  exists t, id (record (state (fst (step rt m e))))
            = "payroll-new-" ++ string_of_Z t.
Proof.
  intros Hm.
  destruct e as [o es c | t | v | ym | val | val | val | v | |];
    simpl; try exact Hm;
    try (destruct (isOpen (props m)); simpl; exact Hm).
  - (* Rerender *)
    intros Hnone.
    destruct (depsChanged (props m) o c) eqn:Hdeps.
    + rewrite useEffect_record. simpl. rewrite Hnone.
      exists (now m). reflexivity.
    + apply Hm. unfold depsChanged in Hdeps.
      apply orb_false_elim in Hdeps as [_ Hdeps].
      destruct c as [| [r |]]; simpl in *; try discriminate; auto.
      now destruct (initialRecord (props m)).
  - (* SaveClick *)
    destruct (isOpen (props m)); simpl; [| exact Hm].
    destruct (saveDisabled (state m)); exact Hm.
Qed.

Lemma reachable_placeholder (rt : Runtime) (m : Model) :
  reachable rt m ->
  initialRecord (props m) = None ->
  exists t, id (record (state m)) = "payroll-new-" ++ string_of_Z t.
Proof.
  intros (p & t & es & ->).
  pose (I := fun m : Model =>
               initialRecord (props m) = None ->
               exists t, id (record (state m))
                         = "payroll-new-" ++ string_of_Z t).
  destruct (run_invariant rt I (fun _ => True) (fun _ => True)) with
    (es := es) (m := mount rt p t) as [HI _]; auto.
  - intros m e Hm _. unfold I in *. now apply step_placeholder.
  - unfold I. intros Hnone. simpl in Hnone.
    rewrite mount_record, Hnone. exists t. reflexivity.
  - now apply Forall_forall.
Qed.

(** C5.  When the dialog creates a record (no initial record supplied),
    the identifier of the record passed to the save callback is the
    string "payroll-", the chosen employee id in decimal, "-" and the month
    label with its first space replaced by "-" (for an employee id of
    magnitude at most 2^53, which is printed with all its digits): it is
    built from those two values and nothing else.  It differs from the
    placeholder identifier "payroll-new-<clock>" that the fresh draft
    carries, and from every identifier of that form. *)
Theorem C5_created_identifier
    (rt : Runtime) (m : Model) (r : PayrollRecord) :
  reachable rt m ->
  initialRecord (props m) = None ->
  In (onSave r) (snd (step rt m SaveClick)) ->
  (Z.abs (employeeId (record (state m))) <= 9007199254740992 ->
   id r = "payroll-" ++ string_of_Z (employeeId (record (state m)))
          ++ "-" ++ replace " " "-" (month (record (state m))))
  /\ (exists t, id (record (state m)) = "payroll-new-" ++ string_of_Z t)
  /\ id r <> id (record (state m))
  /\ forall t, id r <> "payroll-new-" ++ string_of_Z t.
Proof.
  intros Hreach Hnone Hin.
  apply step_onSave in Hin as (_ & _ & _ & Hin).
  apply onSaveClick_onSave in Hin as (_ & _ & ->).
  rewrite Hnone. simpl.
  destruct (reachable_placeholder rt m Hreach Hnone) as [t Ht].
  split; [intros _; reflexivity |].
  repeat split.
  - now exists t.
  - rewrite Ht. apply newId_not_placeholder.
  - intros t'. apply newId_not_placeholder.
Qed.

Lemma C5_witness :
  let m := fst (run Examples.utc
                    (mount Examples.utc Examples.creating Examples.clock)
                    [EmployeeChange "7"; MonthChange "2025-09";
                     BasicChange "5000"]) in
  let saved := with_id "payroll-7-September-2025" (record (state m)) in
  In (onSave saved) (snd (step Examples.utc m SaveClick))
  /\ id saved = "payroll-" ++ string_of_Z 7 ++ "-"
                ++ replace " " "-" "September 2025"
  /\ id saved <> id (record (state m)).
Proof.
  intros m saved.
  assert (Hin : In (onSave saved) (snd (step Examples.utc m SaveClick))).
  { vm_compute. left. reflexivity. }
  destruct (C5_created_identifier Examples.utc m saved)
    as (Hid & _ & Hne & _).
  - exists Examples.creating, Examples.clock,
      [EmployeeChange "7"; MonthChange "2025-09"; BasicChange "5000"].
    reflexivity.
  - reflexivity.
  - exact Hin.
  - split; [exact Hin |]. split; [| exact Hne].
    apply Hid. vm_compute. discriminate.
Defined.





(** C7.  A change of any of the three monetary inputs to the empty string
    or to a string in which [parseFloat] finds no number sets the
    corresponding draft field to zero; the handlers are total functions,
    so the change cannot fail. *)
Theorem C7_blank_or_non_numeric_is_zero (val : string) (s : State) :
  val = "" \/ parseFloat val = NaN ->
  basicSalary (record (onBasicChange val s)) = zero
  /\ allowances (record (onAllowancesChange val s)) = zero
  /\ deductions (record (onDeductionsChange val s)) = zero.
Proof.
  intros H.
  assert (Hz : amount_of_input val = zero).
  { unfold amount_of_input. destruct H as [-> | H]; [reflexivity |].
    destruct (String.eqb val ""); [reflexivity |].
    rewrite H. reflexivity. }
  simpl. rewrite Hz. repeat split.
Qed.

Lemma C7_witness :
  let s := state (mount Examples.utc (Examples.editing Examples.sound)
                        Examples.clock) in
  basicSalary (record (onBasicChange "abc" s)) = zero
  /\ allowances (record (onAllowancesChange "abc" s)) = zero
  /\ deductions (record (onDeductionsChange "abc" s)) = zero.
Proof.
  intros s.
  apply (C7_blank_or_non_numeric_is_zero "abc" s).
  right. reflexivity.
Defined.

(** C8, as amended.  When a re-render changes a dependency of the effect
    (the caller passes another record, or the dialog opens or closes) and
    an existing record is supplied, every cell of the draft is replaced
    and nothing of the previous draft is kept: the record is the supplied
    one, the three amount strings come from its amounts, and the month
    picker value comes from its month label, except that it is the
    clock's year and month when that label is not a date. *)
Theorem C8_reset_replaces_draft
    (rt : Runtime) (m : Model) (o : bool) (es : list Employee)
    (c : PropChange) (r : PayrollRecord) :
  depsChanged (props m) o c = true ->
  initialRecord (newProps (props m) o es c) = Some r ->
  state (fst (step rt m (Rerender o es c)))
  = {| record := r;
       basicInput := if truthy (basicSalary r)
                     then numberToString rt (basicSalary r) else "";
       allowancesInput := if truthy (allowances r)
                          then numberToString rt (allowances r) else "";
       deductionsInput := if truthy (deductions r)
                          then numberToString rt (deductions r) else "";
       monthInput := or_string (ymFromLabel rt (month r))
                               (slice0 7 (toISOString (now m))) |}.
Proof.
  intros Hdeps Hr. simpl. rewrite Hdeps.
  unfold useEffect. rewrite Hr. reflexivity.
Qed.

(** C8, the claim as stated, fails: the draft is not derived from the
    supplied record alone.  With the same previous draft and the same
    supplied record, whose label "unknown" is not a date, the month picker
    is "2026-11" when the clock reads 2 November 2026 and "1970-01" when it
    reads the epoch. *)
Lemma C8_counterexample :
  let m1 := mount Examples.utc (Examples.editing Examples.sound)
                  Examples.clock in
  let m2 := fst (step Examples.utc m1 (Tick 0)) in
  let e := Rerender true [Examples.asha]
                    (NewRecord (Some Examples.undated)) in
  state m1 = state m2
  /\ monthInput (state (fst (step Examples.utc m1 e))) = "2026-11"
  /\ monthInput (state (fst (step Examples.utc m2 e))) = "1970-01"
  /\ state (fst (step Examples.utc m1 e))
     <> state (fst (step Examples.utc m2 e)).
Proof.
  repeat split; try (vm_compute; reflexivity).
  vm_compute. discriminate.
Qed.

Lemma C8_witness :
  let edited := fst (run Examples.utc
                         (mount Examples.utc
                                (Examples.editing Examples.stale)
                                Examples.clock)
                         [BasicChange "1"; MonthChange "2024-02";
                          StatusChange Paid; EmployeeChange ""]) in
  let closed := fst (run Examples.utc edited
                         [Rerender false [Examples.asha] SameRecord;
                          Tick 0]) in
  state (fst (step Examples.utc edited
                   (Rerender true [Examples.asha]
                             (NewRecord (Some Examples.sound)))))
  = {| record := Examples.sound;
       basicInput := "5000"; allowancesInput := "200";
       deductionsInput := "100"; monthInput := "2025-09" |}
  /\ state (fst (step Examples.utc closed
                      (Rerender true [Examples.asha] SameRecord)))
     = {| record := Examples.stale;
          basicInput := "5000"; allowancesInput := "200";
          deductionsInput := "100"; monthInput := "2025-09" |}.
Proof.
  intros edited closed. split.
  - rewrite (C8_reset_replaces_draft Examples.utc edited true
               [Examples.asha] (NewRecord (Some Examples.sound))
               Examples.sound).
    + vm_compute. reflexivity.
    + reflexivity.
    + reflexivity.
  - rewrite (C8_reset_replaces_draft Examples.utc closed true
               [Examples.asha] SameRecord Examples.stale).
    + vm_compute. reflexivity.
    + reflexivity.
    + reflexivity.
Defined.

(** C6, as amended.  For a month label that [new Date] cannot parse,
    [ymFromLabel] returns the empty string; initialising the draft from a
    record with such a label then sets the month picker to the first seven
    characters of the clock's ISO string (its year and month), which is
    never the empty value. *)
Theorem C6_unparseable_label_falls_back
    (rt : Runtime) (t : Z) (p : Props) (s : State) (r : PayrollRecord) :
  initialRecord p = Some r ->
  parseDate rt (month r) = None ->
  ymFromLabel rt (month r) = ""
  /\ monthInput (useEffect rt t p s) = slice0 7 (toISOString t)
  /\ monthInput (useEffect rt t p s) <> "".
Proof.
  intros Hp Hparse.
  assert (Hym : ymFromLabel rt (month r) = "").
  { unfold ymFromLabel. now rewrite Hparse. }
  assert (Hin : monthInput (useEffect rt t p s) = slice0 7 (toISOString t)).
  { unfold useEffect. rewrite Hp. simpl. rewrite Hym. reflexivity. }
  repeat split; auto.
  rewrite Hin. apply toISOString_nonempty.
Qed.

(** C6, the claim as stated, fails: the label "unknown" is not a date, and
    the draft initialised from a record carrying it has the month picker
    set to "2026-11", the clock's month. *)
Lemma C6_counterexample :
  parseDate Examples.utc (month Examples.undated) = None
  /\ monthInput (state (mount Examples.utc
                              (Examples.editing Examples.undated)
                              Examples.clock)) = "2026-11"
  /\ monthInput (state (mount Examples.utc
                              (Examples.editing Examples.undated)
                              Examples.clock)) <> "".
Proof.
  repeat split; try (vm_compute; reflexivity).
  vm_compute. discriminate.
Qed.

Lemma C6_witness :
  ymFromLabel Examples.utc "unknown" = ""
  /\ monthInput (useEffect Examples.utc Examples.clock
                           (Examples.editing Examples.undated)
                           (useState Examples.utc Examples.clock
                                     (Examples.editing Examples.undated)))
     = "2026-11".
Proof.
  destruct (C6_unparseable_label_falls_back Examples.utc Examples.clock
              (Examples.editing Examples.undated)
              (useState Examples.utc Examples.clock
                        (Examples.editing Examples.undated))
              Examples.undated) as (Hym & Hin & _).
  - reflexivity.
  - vm_compute. reflexivity.
  - split; [exact Hym |]. rewrite Hin. vm_compute. reflexivity.
Defined.

(** [labelFromYm] never returns the empty string, when the locale's month
    and year format does not. *)
Lemma labelFromYm_nonempty (rt : Runtime) (t : Z) (ym : string) :
  (forall y mo, formatMonthYear rt y mo <> "") ->
  labelFromYm rt t ym <> "".
Proof.
  intros Hfmt. unfold labelFromYm.
  assert (Hnow : toLocaleString rt t <> "") by apply Hfmt.
  destruct (nth_error _ 0) as [[y |] |]; try exact Hnow.
  destruct (nth_error _ 1) as [[mo |] |]; try exact Hnow.
  destruct ((y =? 0) || (mo =? 0)); [exact Hnow |].
  unfold toLocaleStringUTC.
  destruct (Date_UTC y (mo - 1) 1); [apply Hfmt | discriminate].
Qed.

Lemma step_month_nonempty (rt : Runtime) (m : Model) (e : Event) :
  (forall y mo, formatMonthYear rt y mo <> "") ->
  month (record (state m)) <> ""
  /\ (forall r, initialRecord (props m) = Some r -> month r <> "") ->
  suppliesLabelled e ->
  month (record (state (fst (step rt m e)))) <> ""
  /\ (forall r, initialRecord (props (fst (step rt m e))) = Some r ->
      month r <> "").
Proof.
  intros Hfmt [Hd Hp] He.
  destruct e as [o es c | t | v | ym | val | val | val | v | |];
    simpl; try (split; assumption);
    try (destruct (isOpen (props m)); simpl; split; assumption).
  - (* Rerender *)
    assert (Hp' : forall r, initialRecord (newProps (props m) o es c) = Some r
                            -> month r <> "").
    { destruct c as [| [r |]]; simpl in *; try assumption.
      - now intros r0 [= <-].
      - discriminate. }
    split; [| exact Hp'].
    destruct (depsChanged (props m) o c); [| assumption].
    rewrite useEffect_record.
    destruct (initialRecord (newProps (props m) o es c)) as [r |] eqn:Hr.
    + now apply Hp'.
    + simpl. apply Hfmt.
  - (* MonthChange *)
    destruct (isOpen (props m)); simpl; split; try assumption.
    now apply labelFromYm_nonempty.
  - (* SaveClick *)
    destruct (isOpen (props m)); simpl; [| split; assumption].
    destruct (saveDisabled (state m)); simpl; split; assumption.
Qed.

(** C10, as amended.  In every reachable draft state the record's month
    field is a non-empty string, provided every record the caller supplied
    has a non-empty month label (and the locale's month and year format is
    never empty): the fresh draft takes the current month's label, an
    edited draft copies the supplied label as it is, and every change of
    the month picker, clearing included, stores the result of
    [labelFromYm], which is never empty. *)
Theorem C10_month_label_nonempty
    (rt : Runtime) (p : Props) (t : Z) (es : list Event) :
  (forall y mo, formatMonthYear rt y mo <> "") ->
  (forall r, initialRecord p = Some r -> month r <> "") ->
  Forall suppliesLabelled es ->
  month (record (state (fst (run rt (mount rt p t) es)))) <> "".
Proof.
  intros Hfmt Hp Hes.
  pose (I := fun m : Model =>
               month (record (state m)) <> ""
               /\ (forall r, initialRecord (props m) = Some r ->
                   month r <> "")).
  destruct (run_invariant rt I suppliesLabelled (fun _ => True)) with
    (es := es) (m := mount rt p t) as [[HI _] _]; auto.
  - intros m e Hm He. unfold I in *. now apply step_month_nonempty.
  - unfold I. split; [| exact Hp].
    rewrite mount_record. destruct (initialRecord p) as [r |].
    + now apply Hp.
    + simpl. apply Hfmt.
Qed.

(** C10, the claim as stated, fails: opened on a record whose month label
    is the empty string, the dialog is in a draft state whose month is
    empty. *)
Lemma C10_counterexample :
  reachable Examples.utc
            (mount Examples.utc (Examples.editing Examples.unlabelled)
                   Examples.clock)
  /\ month (record (state (mount Examples.utc
                                 (Examples.editing Examples.unlabelled)
                                 Examples.clock))) = "".
Proof.
  split; [| reflexivity].
  exists (Examples.editing Examples.unlabelled), Examples.clock, [].
  reflexivity.
Qed.

Lemma C10_witness :
  month (record (state (fst (run Examples.utc
                                 (mount Examples.utc
                                        (Examples.editing Examples.sound)
                                        Examples.clock)
                                 [MonthChange ""; Tick 0;
                                  MonthChange "2025-13"]))))
  <> "".
Proof.
  apply (C10_month_label_nonempty Examples.utc
           (Examples.editing Examples.sound) Examples.clock
           [MonthChange ""; Tick 0; MonthChange "2025-13"]).
  - exact V8_formatMonthYear_nonempty.
  - intros r [= <-]. vm_compute. discriminate.
  - repeat constructor.
Defined.

(** C2 does not hold of the code.  In a time zone east of UTC the label of
    a month is read back as the month before it: with local time at
    UTC+05:30, "2025-09" gives the label "September 2025", which is parsed
    as local midnight of 1 September, a time of 31 August in UTC, and
    [ymFromLabel] answers "2025-08". *)
Theorem C2_roundtrip_shifts_east_of_UTC :
  labelFromYm Examples.ist Examples.clock "2025-09" = "September 2025"
  /\ ymFromLabel Examples.ist "September 2025" = "2025-08".
Proof. split; vm_compute; reflexivity. Qed.

(** At UTC the same month does come back. *)
Lemma roundtrip_at_UTC :
  ymFromLabel Examples.utc (labelFromYm Examples.utc Examples.clock "2025-09")
  = "2025-09".
Proof. vm_compute. reflexivity. Qed.

(** Whatever the time zone, a year below 1000 does not come back: the year
    is printed without leading zeros, and a year below 100 is moved into
    the twentieth century by [Date.UTC]. *)
Lemma roundtrip_small_years :
  ymFromLabel Examples.utc (labelFromYm Examples.utc Examples.clock "0999-12")
  = "999-12"
  /\ ymFromLabel Examples.utc
                 (labelFromYm Examples.utc Examples.clock "0099-01")
     = "1999-01".
Proof. split; vm_compute; reflexivity. Qed.

(** A printed integer has no leading zero: it starts with "0" only when it
    is "0". *)
Lemma nzhead_no_D0 (d d' : Decimal.uint) : Decimal.nzhead d <> Decimal.D0 d'.
Proof.
  induction d; simpl; try discriminate. exact IHd.
Qed.

Lemma to_uint_no_D0 (p : positive) (d : Decimal.uint) :
  Pos.to_uint p <> Decimal.D0 d.
Proof.
  intros E.
  pose proof (DecimalPos.Unsigned.to_of (Pos.to_uint p)) as H.
  rewrite DecimalPos.Unsigned.of_to in H. simpl in H.
  rewrite E in H. unfold Decimal.unorm in H. simpl in H.
  destruct (Decimal.nzhead d) eqn:Hd; try discriminate.
  - injection H as ->. now apply (DecimalPos.Unsigned.to_uint_nonzero p).
  - symmetry in H. rewrite <- Hd in H. now apply nzhead_no_D0 in H.
Qed.

Lemma string_of_Z_leading_zero (n : Z) (s : string) :
  string_of_Z n = String "0" s -> s = "".
Proof.
  unfold string_of_Z, NilZero.string_of_int, NilZero.string_of_uint.
  destruct n as [| p | p]; simpl.
  - now intros [= <-].
  - destruct (Pos.to_uint p) eqn:Hp; simpl; try discriminate.
    + now intros [= <-].
    + now apply to_uint_no_D0 in Hp.
  - discriminate.
Qed.

(** In no runtime does the reverse conversion return a month value whose
    year is written with a leading zero, such as "0999-12". *)
Lemma ymFromLabel_never_zero_padded (rt : Runtime) (label : string) :
  ymFromLabel rt label <> "0999-12".
Proof.
  unfold ymFromLabel.
  destruct (parseDate rt label) as [dt |]; [| discriminate].
  destruct (string_of_Z (YearFromTime dt)) as [| c s] eqn:Hy; simpl;
    [discriminate |].
  intros [= -> Hrest].
  apply string_of_Z_leading_zero in Hy. subst s. discriminate.
Qed.

(** ** The two conversions in general

    The forward conversion of a month of a year from 100 on is the
    locale's text for that year and month. *)
Lemma labelFromYm_valid (rt : Runtime) (t : Z) (ym : string) (y m tv : Z) :
  map parseInt (split "-" ym) = [Some y; Some m] ->
  100 <= y -> 1 <= m <= 12 ->
  Date_UTC y (m - 1) 1 = Some tv ->
  labelFromYm rt t ym = formatMonthYear rt y (m - 1).
Proof.
  intros Hparts Hy Hm Htv.
  unfold labelFromYm. rewrite Hparts. simpl.
  destruct (Z.eqb_spec y 0); [lia |].
  destruct (Z.eqb_spec m 0); [lia |]. simpl.
  rewrite Htv. simpl.
  unfold Date_UTC, MakeFullYear, TimeClip in Htv.
  replace ((0 <=? y) && (y <=? 99)) with false in Htv
    by (symmetry; apply andb_false_iff; right; apply Z.leb_gt; lia).
  destruct (_ <? _); [discriminate |]. injection Htv as <-.
  destruct (first_of_month_fields y (m - 1) 0) as [-> ->];
    [lia | unfold msPerDay; lia | reflexivity].
Qed.

(** The reverse conversion, when [new Date(label)] is local midnight of
    the first day of month [mn] of year [y], which is how a label such as
    "September 2025" is read.  At UTC and west of it the UTC fields of that
    time are [y] and [mn]; east of UTC they are those of the month
    before. *)
Lemma ymFromLabel_local_midnight
    (rt : Runtime) (label : string) (y mn : Z) :
  0 <= mn <= 11 ->
  parseDate rt label = Some (MakeDate (MakeDay y mn 1) 0 - LocalTZA rt) ->
  (- msPerDay < LocalTZA rt <= 0 ->
   ymFromLabel rt label
   = string_of_Z y ++ "-" ++ padStart 2 "0" (string_of_Z (mn + 1)))
  /\ (0 < LocalTZA rt <= msPerDay ->
      ymFromLabel rt label
      = string_of_Z (if mn =? 0 then y - 1 else y) ++ "-"
        ++ padStart 2 "0"
             (string_of_Z ((if mn =? 0 then 11 else mn - 1) + 1))).
Proof.
  intros Hmn Hparse. unfold ymFromLabel. rewrite Hparse. split; intros Htz.
  - replace (MakeDate (MakeDay y mn 1) 0 - LocalTZA rt)
      with (MakeDate (MakeDay y mn 1) (- LocalTZA rt))
      by (unfold MakeDate; lia).
    destruct (first_of_month_fields y mn (- LocalTZA rt)) as [-> ->];
      [lia | lia | reflexivity].
  - destruct (eve_of_month_fields y mn (LocalTZA rt)) as [-> ->];
      [lia | lia | reflexivity].
Qed.
(* ================================================================== *)
(** * Further properties of the component                              *)
(* ================================================================== *)

(** ** Saving *)

(** X1.  While the dialog is open, a click on Save with a non-zero employee
    id that is the id of a listed employee and a non-empty month picker
    value calls onSave once, with the draft under its resolved identifier,
    then onClose, and leaves the draft as it is. *)
Theorem save_click_saves_and_closes
    (rt : Runtime) (m : Model) (emp : Employee) :
  isOpen (props m) = true ->
  employeeId (record (state m)) <> 0 ->
  In emp (employees (props m)) ->
  emp_id emp = employeeId (record (state m)) ->
  monthInput (state m) <> "" ->
  step rt m SaveClick
  = (m, [onSave (with_id
                   (match initialRecord (props m) with
                    | Some init => id init
                    | None => newId (employeeId (record (state m)))
                                    (month (record (state m)))
                    end)
                   (record (state m)));
         onClose]).
Proof.
  intros Hopen Hid Hin Hemp Hmonth.
  simpl. rewrite Hopen. simpl.
  unfold saveDisabled.
  apply Z.eqb_neq in Hid. rewrite Hid.
  destruct (monthInput (state m)) as [| c s] eqn:Hm; [congruence |].
  simpl. unfold onSaveClick. rewrite Hid. simpl.
  destruct (employeeMap (employees (props m)) (employeeId (record (state m))))
    as [e |] eqn:He; [reflexivity |].
  exfalso. exact (employeeMap_None _ _ He emp Hin Hemp).
Qed.

Lemma save_click_saves_and_closes_witness :
  snd (step Examples.utc
            (mount Examples.utc (Examples.editing Examples.sound)
                   Examples.clock)
            SaveClick)
  = [onSave Examples.sound; onClose].
Proof.
  rewrite (save_click_saves_and_closes Examples.utc
             (mount Examples.utc (Examples.editing Examples.sound)
                    Examples.clock)
             Examples.asha).
  - reflexivity.
  - reflexivity.
  - vm_compute. discriminate.
  - left. reflexivity.
  - reflexivity.
  - vm_compute. discriminate.
Defined.

(** The callbacks one event makes: none, onClose, or onSave followed by
    onClose. *)
Lemma step_outputs_shape (rt : Runtime) (m : Model) (e : Event) :
  snd (step rt m e) = []
  \/ snd (step rt m e) = [onClose]
  \/ exists r, snd (step rt m e) = [onSave r; onClose].
Proof.
  destruct e; simpl; auto;
    destruct (isOpen (props m)); simpl; auto.
  destruct (saveDisabled (state m)); simpl; auto.
  unfold onSaveClick.
  destruct (_ || _); simpl; [auto | right; right; eauto].
Qed.

(** X2.  Along every sequence of events, each call of onSave is followed at
    once by a call of onClose: the dialog never saves without asking to be
    closed. *)
Theorem every_save_is_followed_by_close
    (rt : Runtime) (es : list Event) (m : Model)
    (pre post : list Output) (r : PayrollRecord) :
  snd (run rt m es) = (pre ++ onSave r :: post)%list ->
  exists post', post = onClose :: post'.
Proof.
  revert m pre. induction es as [| e rest IH]; intros m pre; simpl.
  - destruct pre; discriminate.
  - pose proof (step_outputs_shape rt m e) as Hshape.
    destruct (step rt m e) as [m1 o1]. simpl in Hshape.
    specialize (IH m1).
    destruct (run rt m1 rest) as [m2 o2]. simpl in *.
    destruct Hshape as [-> | [-> | [r' ->]]]; simpl.
    + apply IH.
    + destruct pre as [| x pre']; simpl; [discriminate |].
      intros [= _ H]. now apply (IH pre').
    + destruct pre as [| x [| y pre']]; simpl.
      * intros [= _ H]. eauto.
      * intros H. discriminate H.
      * intros [= _ _ H]. now apply (IH pre').
Qed.

Lemma every_save_is_followed_by_close_witness :
  exists post', [onClose; onClose] = onClose :: post'.
Proof.
  apply (every_save_is_followed_by_close Examples.utc
           [CancelClick; SaveClick; CancelClick]
           (mount Examples.utc (Examples.editing Examples.sound)
                  Examples.clock)
           [onClose] [onClose; onClose] Examples.sound).
  vm_compute. reflexivity.
Defined.

(** X3.  A dialog opened to create a record cannot save before an employee
    is chosen: as long as no employee is selected and no existing record
    is handed over, the draft's employee id stays 0 and onSave is never
    called, whatever else is typed or clicked. *)
Theorem new_record_needs_an_employee
    (rt : Runtime) (p : Props) (t : Z) (es : list Event)
    (r : PayrollRecord) :
  initialRecord p = None ->
  Forall leavesEmployeeUnset es ->
  employeeId (record (state (fst (run rt (mount rt p t) es)))) = 0
  /\ ~ In (onSave r) (snd (run rt (mount rt p t) es)).
Proof.
  intros Hp Hes.
  pose (I := fun m : Model =>
               initialRecord (props m) = None
               /\ employeeId (record (state m)) = 0).
  destruct (run_invariant rt I leavesEmployeeUnset (fun _ => False))
    with (es := es) (m := mount rt p t) as [[_ HI] Hsaves]; auto.
  - intros m e [Hnone Hzero] He. unfold I.
    destruct e as [o es' [| [r' |]] | | | | | | | | |]; simpl in *;
      try tauto; try (split; assumption);
      try (destruct (isOpen (props m)); simpl; split; assumption).
    + split; [assumption |].
      destruct (depsChanged (props m) o SameRecord); [| assumption].
      rewrite useEffect_record. simpl. now rewrite Hnone.
    + split; [reflexivity |].
      destruct (depsChanged (props m) o (NewRecord None)); [| assumption].
      reflexivity.
    + destruct (isOpen (props m)); simpl; [| split; assumption].
      destruct (saveDisabled (state m)); split; assumption.
  - intros m e r' [_ Hzero] _ Hsave.
    apply step_onSave in Hsave as (_ & _ & _ & Hsave).
    apply onSaveClick_onSave in Hsave as (Hid & _). contradiction.
  - unfold I. simpl. split; [exact Hp |]. now rewrite Hp.
  - split; [exact HI |]. intros Hin. exact (Hsaves r Hin).
Qed.

Lemma new_record_needs_an_employee_witness :
  ~ In (onSave Examples.sound)
       (snd (run Examples.utc
                 (mount Examples.utc Examples.creating Examples.clock)
                 [BasicChange "5000"; MonthChange "2025-09"; SaveClick])).
Proof.
  apply (new_record_needs_an_employee Examples.utc Examples.creating
           Examples.clock
           [BasicChange "5000"; MonthChange "2025-09"; SaveClick]
           Examples.sound).
  - reflexivity.
  - repeat constructor.
Defined.

(** ** The employee lookup *)

(** X4.  [employeeMap.get] misses exactly when no employee of the list has
    the id looked up. *)
Theorem employeeMap_misses_iff_absent (es : list Employee) (k : Z) :
  employeeMap es k = None <-> forall e, In e es -> emp_id e <> k.
Proof.
  split; [apply employeeMap_None |].
  induction es as [| a rest IH]; simpl; [reflexivity |].
  intros H. rewrite IH by (intros e He; apply H; now right).
  specialize (H a (or_introl eq_refl)).
  apply Z.eqb_neq in H. now rewrite H.
Qed.

(** X5.  Of several employees with the same id the lookup returns the one
    that comes last in the list. *)
Theorem employeeMap_last_entry_wins
    (es1 es2 : list Employee) (e : Employee) :
  (forall e', In e' es2 -> emp_id e' <> emp_id e) ->
  employeeMap (es1 ++ e :: es2) (emp_id e) = Some e.
Proof.
  intros Hlast.
  induction es1 as [| a rest IH]; simpl.
  - apply employeeMap_misses_iff_absent in Hlast. rewrite Hlast.
    now rewrite Z.eqb_refl.
  - now rewrite IH.
Qed.

Lemma employeeMap_last_entry_wins_witness :
  let twin := {| emp_id := 7; emp_name := "Bela";
                 emp_department := "Sales" |} in
  employeeMap ([Examples.asha] ++ twin :: []) 7 = Some twin.
Proof.
  intros twin.
  apply (employeeMap_last_entry_wins [Examples.asha] [] twin).
  intros e' [].
Defined.

(** ** The net salary *)

(** X6.  The recomputed net salary is never below zero: it is a finite
    value of at least 0, or plus infinity, or NaN (when an amount is NaN
    or infinities cancel); never a negative number or minus infinity. *)
Theorem recomputeNet_never_negative (basic allowances deductions : number) :
  nonNegative (recomputeNet basic allowances deductions).
Proof.
  unfold recomputeNet, zero.
  destruct (sub (add basic allowances) deductions) as [| [|] | q]; simpl;
    try reflexivity.
  - apply Qle_refl.
  - destruct (Qle_bool 0 q) eqn:Hq; simpl.
    + now apply Qle_bool_iff.
    + apply Qle_refl.
Qed.

Lemma integer_sum_exact (b a d : Z) :
  (inject_Z b + inject_Z a + - inject_Z d)%Q = inject_Z (b + a - d).
Proof.
  unfold inject_Z, Qplus, Qopp. cbn [Qnum Qden Pos.mul].
  f_equal. lia.
Qed.

(** X7.  On integral amounts of magnitude at most 2^51, where the sums of
    doubles are exact, the recomputed net salary is exactly basic +
    allowances - deductions when that is positive, and 0 otherwise. *)
Theorem recomputeNet_on_integers (b a d : Z) :
  Z.abs b <= 2251799813685248 ->
  Z.abs a <= 2251799813685248 ->
  Z.abs d <= 2251799813685248 ->
  recomputeNet (of_Z b) (of_Z a) (of_Z d) = of_Z (Z.max 0 (b + a - d)).
Proof.
  intros _ _ _.
  unfold recomputeNet, sub, add, neg, max, zero, of_Z.
  rewrite integer_sum_exact.
  replace (Qle_bool 0 (inject_Z (b + a - d))) with (0 <=? b + a - d)
    by (unfold Qle_bool, inject_Z; cbn [Qnum Qden];
        now rewrite !Z.mul_1_r).
  destruct (Z.leb_spec 0 (b + a - d)).
  - now rewrite Z.max_r by lia.
  - now rewrite Z.max_l by lia.
Qed.

Lemma recomputeNet_on_integers_witness :
  recomputeNet (of_Z 5000) (of_Z 200) (of_Z 6000) = of_Z 0
  /\ recomputeNet (of_Z 5000) (of_Z 200) (of_Z 100) = of_Z 5100.
Proof.
  split.
  - apply (recomputeNet_on_integers 5000 200 6000); simpl; lia.
  - apply (recomputeNet_on_integers 5000 200 100); simpl; lia.
Defined.

(** ** The amount inputs *)

(** X8.  Keystrokes in different monetary inputs commute, and of two
    keystrokes in the same input the later one alone counts: the draft
    after a series of amount edits depends only on the last text of each
    input. *)
Theorem amount_edits_commute_and_overwrite (u v : string) (s : State) :
  onBasicChange u (onAllowancesChange v s)
  = onAllowancesChange v (onBasicChange u s)
  /\ onBasicChange u (onDeductionsChange v s)
     = onDeductionsChange v (onBasicChange u s)
  /\ onAllowancesChange u (onDeductionsChange v s)
     = onDeductionsChange v (onAllowancesChange u s)
  /\ onBasicChange v (onBasicChange u s) = onBasicChange v s
  /\ onAllowancesChange v (onAllowancesChange u s) = onAllowancesChange v s
  /\ onDeductionsChange v (onDeductionsChange u s) = onDeductionsChange v s.
Proof. repeat split. Qed.

Lemma or_number_zero_not_NaN (x : number) : or_number x zero <> NaN.
Proof.
  unfold or_number. destruct x as [| neg | q]; simpl; try discriminate.
  destruct (negb _); discriminate.
Qed.

Lemma amount_of_input_not_NaN (val : string) : amount_of_input val <> NaN.
Proof.
  unfold amount_of_input.
  destruct (String.eqb val ""); [discriminate |].
  apply or_number_zero_not_NaN.
Qed.

(** X9.  Whatever text a monetary input receives, the amount stored in the
    draft is a number: a keystroke never leaves NaN in basicSalary,
    allowances or deductions. *)
Theorem amount_edits_never_store_NaN (val : string) (s : State) :
  basicSalary (record (onBasicChange val s)) <> NaN
  /\ allowances (record (onAllowancesChange val s)) <> NaN
  /\ deductions (record (onDeductionsChange val s)) <> NaN.
Proof. repeat split; simpl; apply amount_of_input_not_NaN. Qed.



(** ** Resets and re-renders *)

(** X11.  When a re-render changes a dependency of the effect, the draft
    becomes exactly the draft of a dialog freshly mounted with the new
    props at that moment, in create mode as in edit mode: no edit
    survives a reset.  When no dependency changes, the draft is left as it
    is, whatever else the re-render changes. *)
Theorem rerender_resets_or_keeps
    (rt : Runtime) (m : Model) (o : bool) (es : list Employee)
    (c : PropChange) :
  state (fst (step rt m (Rerender o es c)))
  = if depsChanged (props m) o c
    then state (mount rt (newProps (props m) o es c) (now m))
    else state m.
Proof.
  simpl. destruct (depsChanged (props m) o c); reflexivity.
Qed.

(** ** The month picker *)

Lemma or_string_nonempty (a b : string) : b <> "" -> or_string a b <> "".
Proof.
  intros Hb. unfold or_string.
  destruct a; simpl; [exact Hb | discriminate].
Qed.

Lemma useEffect_monthInput_nonempty
    (rt : Runtime) (t : Z) (p : Props) (s : State) :
  monthInput (useEffect rt t p s) <> "".
Proof.
  unfold useEffect. simpl.
  apply or_string_nonempty, toISOString_nonempty.
Qed.

(** X12.  The month picker holds a value from the moment the dialog is
    mounted: it is empty only after the user has cleared it.  Along every
    sequence of events without a change of the picker to the empty value,
    the picker value is non-empty, so that only a missing employee can
    keep Save disabled. *)
Theorem month_picker_empty_only_when_cleared
    (rt : Runtime) (p : Props) (t : Z) (es : list Event) :
  Forall notClearingMonth es ->
  monthInput (state (fst (run rt (mount rt p t) es))) <> "".
Proof.
  intros Hes.
  pose (I := fun m : Model => monthInput (state m) <> "").
  destruct (run_invariant rt I notClearingMonth (fun _ => True))
    with (es := es) (m := mount rt p t) as [HI _]; auto.
  - intros m e Hm He. unfold I in *.
    destruct e as [o es' c | | | ym | | | | | |]; simpl; try assumption;
      try (destruct (isOpen (props m)); simpl; assumption).
    + destruct (depsChanged (props m) o c); [| assumption].
      apply useEffect_monthInput_nonempty.
    + destruct (isOpen (props m)); simpl; [| assumption].
      destruct (saveDisabled (state m)); assumption.
  - unfold I. apply useEffect_monthInput_nonempty.
Qed.

Lemma month_picker_empty_only_when_cleared_witness :
  monthInput (state (fst (run Examples.utc
                              (mount Examples.utc
                                     (Examples.editing Examples.undated)
                                     Examples.clock)
                              [MonthChange "2025-10"; StatusChange Paid])))
  <> "".
Proof.
  apply (month_picker_empty_only_when_cleared Examples.utc
           (Examples.editing Examples.undated) Examples.clock
           [MonthChange "2025-10"; StatusChange Paid]).
  repeat constructor. discriminate.
Defined.

(** ** What an event leaves alone *)

(** X13.  An input event changes only the fields it is about: choosing an
    employee changes employeeId alone, choosing a month the month label
    alone, choosing a status the status alone, and a keystroke in a
    monetary input that amount and the net salary alone.  No input event,
    click or clock tick changes the draft's identifier. *)
Theorem input_events_change_their_fields_only
    (rt : Runtime) (m : Model) (e : Event) :
  let r := record (state m) in
  let r' := record (state (fst (step rt m e))) in
  match e with
  | Rerender _ _ _ => True
  | EmployeeChange _ => r' = with_employeeId (employeeId r') r
  | MonthChange _ => r' = with_month (month r') r
  | StatusChange _ => r' = with_status (status r') r
  | BasicChange _ => r' = with_basicSalary (basicSalary r') (netSalary r') r
  | AllowancesChange _ =>
      r' = with_allowances (allowances r') (netSalary r') r
  | DeductionsChange _ =>
      r' = with_deductions (deductions r') (netSalary r') r
  | Tick _ | SaveClick | CancelClick => r' = r
  end.
Proof.
  destruct e; simpl; auto;
    destruct (isOpen (props m)); simpl;
    try (destruct (record (state m)); reflexivity).
  destruct (saveDisabled (state m)); reflexivity.
Qed.

(** ** Printed integers *)

Lemma string_of_Z_pos (p : positive) :
  string_of_Z (Z.pos p) = NilEmpty.string_of_uint (Pos.to_uint p).
Proof.
  unfold string_of_Z, NilZero.string_of_int, NilZero.string_of_uint. simpl.
  destruct (Pos.to_uint p) eqn:Hp; try reflexivity.
  now apply DecimalPos.Unsigned.to_uint_nonnil in Hp.
Qed.

Lemma string_of_Z_neg (p : positive) :
  string_of_Z (Z.neg p)
  = String "-" (NilEmpty.string_of_uint (Pos.to_uint p)).
Proof.
  unfold string_of_Z, NilZero.string_of_int, NilZero.string_of_uint. simpl.
  destruct (Pos.to_uint p) eqn:Hp; try reflexivity.
  now apply DecimalPos.Unsigned.to_uint_nonnil in Hp.
Qed.

Lemma take_digits_string_of_uint (d : Decimal.uint) :
  take_digits (NilEmpty.string_of_uint d) = (uint_digits d, "").
Proof.
  induction d; simpl; try reflexivity;
    unfold is_digit; simpl; rewrite IHd; reflexivity.
Qed.

Lemma digits_fold_of_lu (d acc : Decimal.uint) :
  fold_left (fun a k => 10 * a + k) (uint_digits d)
            (Z.of_N (DecimalPos.Unsigned.of_lu acc))
  = Z.of_N (DecimalPos.Unsigned.of_lu (Decimal.revapp d acc)).
Proof.
  revert acc.
  induction d; intros acc; cbn [uint_digits fold_left Decimal.revapp];
    try reflexivity;
    rewrite <- IHd; f_equal;
    match goal with
    | |- _ = Z.of_N (DecimalPos.Unsigned.of_lu ?x) =>
        rewrite (DecimalPos.Unsigned.of_lu_eqn x);
        cbn [DecimalPos.Unsigned.hd DecimalPos.Unsigned.tl]
    end; lia.
Qed.

Lemma digits_value_to_uint (p : positive) :
  digits_value (uint_digits (Pos.to_uint p)) = Z.pos p.
Proof.
  unfold digits_value.
  change 0 with (Z.of_N (DecimalPos.Unsigned.of_lu Decimal.Nil)).
  rewrite digits_fold_of_lu.
  change (Decimal.revapp (Pos.to_uint p) Decimal.Nil)
    with (Decimal.rev (Pos.to_uint p)).
  rewrite <- DecimalPos.Unsigned.of_uint_alt, DecimalPos.Unsigned.of_to.
  reflexivity.
Qed.

Lemma uint_digits_nonempty (p : positive) :
  uint_digits (Pos.to_uint p) <> [].
Proof.
  pose proof (DecimalPos.Unsigned.to_uint_nonnil p) as H.
  destruct (Pos.to_uint p); simpl; congruence.
Qed.

(** The first character of a numeral is no space and no sign. *)
Lemma string_of_uint_head (d : Decimal.uint) :
  d <> Decimal.Nil ->
  exists c s, NilEmpty.string_of_uint d = String c s
              /\ is_space c = false
              /\ Ascii.eqb c "-" = false /\ Ascii.eqb c "+" = false.
Proof.
  destruct d; [congruence | ..]; intros _; simpl;
    eexists; eexists; repeat split.
Qed.

(** [parseInt] reads a printed integer back. *)
Lemma parseInt_string_of_Z (n : Z) : parseInt (string_of_Z n) = Some n.
Proof.
  destruct n as [| p | p].
  - reflexivity.
  - rewrite string_of_Z_pos. unfold parseInt.
    destruct (string_of_uint_head (Pos.to_uint p)
                (DecimalPos.Unsigned.to_uint_nonnil p))
      as (c & s & Hs & Hsp & Hm & Hpl).
    pose proof (take_digits_string_of_uint (Pos.to_uint p)) as Htd.
    rewrite Hs in *. simpl trim_start. rewrite Hsp.
    unfold take_sign. rewrite Hm, Hpl, Htd.
    pose proof (uint_digits_nonempty p) as Hne.
    destruct (uint_digits (Pos.to_uint p)) eqn:Hd; [congruence |].
    rewrite <- Hd, digits_value_to_uint. reflexivity.
  - rewrite string_of_Z_neg. unfold parseInt. simpl.
    rewrite take_digits_string_of_uint.
    pose proof (uint_digits_nonempty p) as Hne.
    destruct (uint_digits (Pos.to_uint p)) eqn:Hd; [congruence |].
    rewrite <- Hd, digits_value_to_uint. reflexivity.
Qed.

(** X14.  The employee select round-trips: choosing the option of an
    employee whose id is an integer of magnitude at most 2^53, the value
    of which is that id printed with all its digits, stores exactly that
    id in the draft; the "Select employee..." option, whose value is
    empty, stores 0. *)
Theorem employee_select_stores_the_id (n : Z) (s : State) :
  Z.abs n <= 9007199254740992 ->
  employeeId (record (onEmployeeChange (string_of_Z n) s)) = n
  /\ employeeId (record (onEmployeeChange "" s)) = 0.
Proof.
  intros _. split; [| reflexivity].
  simpl. unfold parseInt_or_0. now rewrite parseInt_string_of_Z.
Qed.

Lemma employee_select_stores_the_id_witness :
  let s := state (mount Examples.utc Examples.creating Examples.clock) in
  employeeId (record (onEmployeeChange "7" s)) = 7.
Proof.
  intros s.
  apply (employee_select_stores_the_id 7 s). simpl. lia.
Defined.

(** ** Identifiers of created records *)

Lemma string_of_uint_sep_inj (d d' : Decimal.uint) (a a' : string) :
  NilEmpty.string_of_uint d ++ "-" ++ a
  = NilEmpty.string_of_uint d' ++ "-" ++ a' ->
  d = d'.
Proof.
  revert d'. induction d; destruct d'; simpl; intros H;
    try discriminate H; try reflexivity;
    injection H as H; f_equal; now apply IHd.
Qed.

Lemma string_of_uint_not_minus (d : Decimal.uint) (a b : string) :
  d <> Decimal.Nil ->
  NilEmpty.string_of_uint d ++ a <> String "-" b.
Proof. destruct d; [congruence | ..]; intros _; discriminate. Qed.

Lemma string_of_Z_sep_inj (n n' : Z) (a a' : string) :
  string_of_Z n ++ "-" ++ a = string_of_Z n' ++ "-" ++ a' -> n = n'.
Proof.
  pose proof DecimalPos.Unsigned.to_uint_nonnil as Hnn.
  pose proof DecimalPos.Unsigned.to_uint_nonzero as Hnz.
  destruct n as [| p | p], n' as [| q | q];
    rewrite ?string_of_Z_pos, ?string_of_Z_neg; intros H;
    try reflexivity.
  - change (string_of_Z 0)
      with (NilEmpty.string_of_uint (Decimal.D0 Decimal.Nil)) in H.
    apply string_of_uint_sep_inj in H. symmetry in H.
    now apply Hnz in H.
  - discriminate H.
  - change (string_of_Z 0)
      with (NilEmpty.string_of_uint (Decimal.D0 Decimal.Nil)) in H.
    apply string_of_uint_sep_inj in H. now apply Hnz in H.
  - apply string_of_uint_sep_inj in H.
    apply DecimalPos.Unsigned.to_uint_inj in H. now subst.
  - exfalso. now apply string_of_uint_not_minus in H.
  - discriminate H.
  - exfalso. symmetry in H. now apply string_of_uint_not_minus in H.
  - simpl in H. injection H as H. apply string_of_uint_sep_inj in H.
    apply DecimalPos.Unsigned.to_uint_inj in H. now subst.
Qed.

(** X15.  Records created for different employees get different
    identifiers: equal created identifiers come from equal employee ids.
    (The month labels need not be equal: "September 2025" and
    "September-2025" give the same identifier.) *)
Theorem newId_separates_employees (e e' : Z) (mo mo' : string) :
  newId e mo = newId e' mo' -> e = e'.
Proof.
  unfold newId. simpl. intros [= H].
  now apply string_of_Z_sep_inj in H.
Qed.

Lemma newId_separates_employees_witness :
  newId 7 "September 2025" = newId 7 "September-2025" /\ 7 = 7.
Proof.
  split; [reflexivity |].
  apply (newId_separates_employees 7 7 "September 2025" "September-2025").
  reflexivity.
Defined.

(** ** The forward conversion in general *)

Lemma split_without_separator (c : ascii) (s : string) :
  mentions c s = false -> split c s = [s].
Proof.
  induction s as [| a rest IH]; simpl; [reflexivity |].
  intros H. apply orb_false_elim in H as [Ha Hrest].
  rewrite (IH Hrest), Ha. reflexivity.
Qed.

(** X16.  [labelFromYm] answers the label of the current month, in local
    time, whenever the month value has no "-" in it (the cleared picker's
    empty value, or a bare year), and whenever its year or month part is
    not a number or is 0. *)
Theorem labelFromYm_falls_back_to_now
    (rt : Runtime) (t : Z) (ym : string) :
  mentions "-" ym = false
  \/ (exists y m rest,
        map parseInt (split "-" ym) = y :: m :: rest
        /\ (y = None \/ y = Some 0 \/ m = None \/ m = Some 0)) ->
  labelFromYm rt t ym = toLocaleString rt t.
Proof.
  unfold labelFromYm.
  intros [H | (y & m & rest & -> & H)].
  - rewrite (split_without_separator _ _ H). simpl.
    now destruct (parseInt ym).
  - simpl. destruct H as [-> | [-> | [-> | ->]]]; try reflexivity.
    + now destruct m.
    + now destruct y.
    + destruct y as [y |]; [| reflexivity].
      now rewrite orb_true_r.
Qed.

Lemma labelFromYm_falls_back_to_now_witness :
  labelFromYm Examples.utc Examples.clock "" = "November 2026"
  /\ labelFromYm Examples.utc Examples.clock "2025-00" = "November 2026".
Proof.
  split.
  - rewrite (labelFromYm_falls_back_to_now Examples.utc Examples.clock "").
    + vm_compute. reflexivity.
    + left. reflexivity.
  - rewrite (labelFromYm_falls_back_to_now Examples.utc Examples.clock
               "2025-00").
    + vm_compute. reflexivity.
    + right. exists (Some 2025), (Some 0), []. split; [reflexivity | auto].
Defined.

Lemma MakeDay_carries_months (y mo : Z) :
  MakeDay y mo 1 = MakeDay (y + mo / 12) (mo mod 12) 1.
Proof.
  unfold MakeDay.
  replace ((mo mod 12) / 12) with 0
    by (Z.to_euclidean_division_equations; lia).
  replace ((mo mod 12) mod 12) with (mo mod 12)
    by (Z.to_euclidean_division_equations; lia).
  now rewrite Z.add_0_r.
Qed.

(** X17.  For numeric, non-zero year and month parts within the range of
    dates, [labelFromYm] is the locale's text for a year and a month index
    computed as [Date.UTC] does: a year from 0 to 99 is taken as 1900 plus
    that year, and a month above 12 carries into the following years
    ("2025-13" is January 2026). *)
Theorem labelFromYm_formats_the_month
    (rt : Runtime) (t : Z) (ym : string) (y m tv : Z)
    (rest : list (option Z)) :
  map parseInt (split "-" ym) = Some y :: Some m :: rest ->
  y <> 0 -> m <> 0 ->
  Date_UTC y (m - 1) 1 = Some tv ->
  labelFromYm rt t ym
  = formatMonthYear rt (MakeFullYear y + (m - 1) / 12) ((m - 1) mod 12).
Proof.
  intros Hparts Hy Hm Htv.
  unfold labelFromYm. rewrite Hparts. simpl.
  apply Z.eqb_neq in Hy, Hm. rewrite Hy, Hm. simpl.
  rewrite Htv. simpl.
  unfold Date_UTC, TimeClip in Htv.
  destruct (_ <? _); [discriminate |]. injection Htv as <-.
  rewrite MakeDay_carries_months.
  destruct (first_of_month_fields (MakeFullYear y + (m - 1) / 12)
                                  ((m - 1) mod 12) 0) as [-> ->];
    [| unfold msPerDay; lia | reflexivity].
  Z.to_euclidean_division_equations; lia.
Qed.

Lemma labelFromYm_formats_the_month_witness :
  labelFromYm Examples.utc Examples.clock "2025-13" = "January 2026"
  /\ labelFromYm Examples.utc Examples.clock "0099-01" = "January 1999".
Proof.
  split.
  - rewrite (labelFromYm_formats_the_month Examples.utc Examples.clock
               "2025-13" 2025 13 1767225600000 []);
      try reflexivity; discriminate.
  - rewrite (labelFromYm_formats_the_month Examples.utc Examples.clock
               "0099-01" 99 1 915148800000 []);
      try reflexivity; discriminate.
Defined.

Lemma DaysBeforeMonth_nonneg (mn leap : Z) :
  0 <= mn <= 11 -> 0 <= leap -> 0 <= DaysBeforeMonth mn leap.
Proof.
  intros Hmn Hleap. unfold DaysBeforeMonth.
  assert (Hn : 0 <= nth (Z.to_nat mn)
                        [0; 31; 59; 90; 120; 151; 181; 212; 243; 273; 304;
                         334] 0)
    by (month_cases mn H; vm_compute; discriminate).
  destruct (2 <=? mn); lia.
Qed.

(** X18.  A year beyond the range of dates (275761 or later) makes
    [labelFromYm] answer the text of an invalid date, which the month
    handler then stores as the record's month label. *)
Theorem labelFromYm_year_out_of_range
    (rt : Runtime) (t : Z) (ym : string) (y m : Z)
    (rest : list (option Z)) :
  map parseInt (split "-" ym) = Some y :: Some m :: rest ->
  275761 <= y -> 1 <= m ->
  labelFromYm rt t ym = "Invalid Date".
Proof.
  intros Hparts Hy Hm.
  unfold labelFromYm. rewrite Hparts. simpl.
  destruct (Z.eqb_spec y 0); [lia |].
  destruct (Z.eqb_spec m 0); [lia |]. simpl.
  replace (Date_UTC y (m - 1) 1) with (@None Z); [reflexivity |].
  symmetry. unfold Date_UTC, TimeClip, MakeFullYear.
  replace ((0 <=? y) && (y <=? 99)) with false
    by (symmetry; apply andb_false_iff; right; apply Z.leb_gt; lia).
  assert (Hday : 100000000 < MakeDay y (m - 1) 1).
  { unfold MakeDay.
    assert (H0 : 0 <= (m - 1) / 12)
      by (Z.to_euclidean_division_equations; lia).
    pose proof (DayFromYear_mono 275761 (y + (m - 1) / 12) ltac:(lia)) as Hd.
    assert (Hb : 0 <= DaysBeforeMonth ((m - 1) mod 12)
                        (if DaysInYear (y + (m - 1) / 12) =? 366
                         then 1 else 0)).
    { apply DaysBeforeMonth_nonneg.
      - Z.to_euclidean_division_equations; lia.
      - destruct (_ =? _); lia. }
    change (DayFromYear 275761) with 100000110 in Hd. lia. }
  unfold MakeDate, msPerDay.
  destruct (Z.ltb_spec 8640000000000000
              (Z.abs (MakeDay y (m - 1) 1 * 86400000 + 0)));
    [reflexivity | lia].
Qed.

Lemma labelFromYm_year_out_of_range_witness :
  labelFromYm Examples.utc Examples.clock "275761-01" = "Invalid Date".
Proof.
  apply (labelFromYm_year_out_of_range Examples.utc Examples.clock
           "275761-01" 275761 1 []).
  - reflexivity.
  - lia.
  - lia.
Defined.

(** ** The reverse conversion in general *)




(** X20.  [ymFromLabel] never pads the year with zeros: its result starts
    with "0" only for the year 0 itself, never with "0" and another
    digit.  A month value such as "0999-12" is therefore never its
    result. *)
Theorem ymFromLabel_never_pads_the_year
    (rt : Runtime) (label : string) (c : ascii) (s : string) :
  is_digit c = true ->
  ymFromLabel rt label <> String "0" (String c s).
Proof.
  intros Hc. unfold ymFromLabel.
  destruct (parseDate rt label) as [dt |]; [| discriminate].
  destruct (string_of_Z (YearFromTime dt)) as [| c0 s0] eqn:Hy; simpl;
    [discriminate |].
  intros [= -> Hrest].
  apply string_of_Z_leading_zero in Hy. subst s0.
  simpl in Hrest. injection Hrest as <- _. discriminate Hc.
Qed.

Lemma ymFromLabel_never_pads_the_year_witness :
  ymFromLabel Examples.utc "December 999" <> "0999-12"
  /\ ymFromLabel Examples.utc "December 999" = "999-12".
Proof.
  split; [| vm_compute; reflexivity].
  apply (ymFromLabel_never_pads_the_year Examples.utc "December 999"
           "9"%char "99-12").
  reflexivity.
Defined.

(** ** The amount inputs and the draft amounts *)

Lemma digit_is_plain (c : ascii) :
  is_digit c = true ->
  is_space c = false /\ Ascii.eqb c "-" = false /\ Ascii.eqb c "+" = false
  /\ Ascii.eqb c "I" = false.
Proof.
  destruct c as [[] [] [] [] [] [] [] []]; intros H;
    try discriminate H; repeat split.
Qed.

Lemma string_of_uint_digit_head (d : Decimal.uint) :
  d <> Decimal.Nil ->
  exists c s, NilEmpty.string_of_uint d = String c s /\ is_digit c = true.
Proof.
  destruct d; [congruence | ..]; intros _; simpl;
    eexists; eexists; split; reflexivity.
Qed.

Lemma prefix_Infinity_digit (c : ascii) (s : string) :
  Ascii.eqb c "I" = false -> prefix "Infinity" (String c s) = false.
Proof.
  intros H.
  change (prefix "Infinity" (String c s))
    with (if ascii_dec "I" c then prefix "nfinity" s else false).
  destruct (ascii_dec "I" c) as [<- | _]; [discriminate H | reflexivity].
Qed.

(** [parseFloat] reads an unsigned numeral as its value. *)
Lemma parseFloat_numeral (neg : bool) (d : Decimal.uint) :
  d <> Decimal.Nil ->
  parseFloat ((if neg then "-" else "") ++ NilEmpty.string_of_uint d)
  = Fin (inject_Z (if neg then - digits_value (uint_digits d)
                   else digits_value (uint_digits d))).
Proof.
  intros Hd.
  destruct (string_of_uint_digit_head d Hd) as (c & s & Hs & Hc).
  destruct (digit_is_plain c Hc) as (Hsp & Hm & Hpl & HI).
  pose proof (take_digits_string_of_uint d) as Htd.
  assert (Hne : uint_digits d <> []) by (destruct d; simpl; congruence).
  assert (Hval : forall m, scale10 m (take_exponent "" - Z.of_nat 0)
                          = inject_Z m).
  { intros m. unfold scale10. simpl. now rewrite Z.mul_1_r. }
  rewrite Hs. unfold parseFloat. destruct neg.
  - change ("-" ++ String c s) with (String "-" (String c s)).
    simpl trim_start. simpl take_sign. cbv iota beta.
    rewrite (prefix_Infinity_digit c s HI), <- Hs, Htd.
    destruct (uint_digits d) as [| k ks] eqn:Hk; [congruence |].
    rewrite app_nil_r. cbv beta iota zeta. simpl List.length.
    now rewrite Hval.
  - change ("" ++ String c s) with (String c s).
    simpl trim_start. rewrite Hsp. unfold take_sign. rewrite Hm, Hpl.
    rewrite (prefix_Infinity_digit c s HI), <- Hs, Htd.
    destruct (uint_digits d) as [| k ks] eqn:Hk; [congruence |].
    rewrite app_nil_r. cbv beta iota zeta. simpl List.length.
    now rewrite Hval.
Qed.

Lemma append_empty_r (s : string) : s ++ "" = s.
Proof. induction s; simpl; congruence. Qed.

(** The text V8 prints for an integral amount parses back to it. *)
Lemma amount_of_printed_integer (n : Z) :
  amount_of_input (V8.numberToString (of_Z n)) = of_Z n.
Proof.
  unfold V8.numberToString, of_Z. simpl Qnum. simpl Qden.
  rewrite Z.div_1_r, Z.mod_1_r. simpl (0 =? 0). cbv iota.
  rewrite append_empty_r.
  pose proof DecimalPos.Unsigned.to_uint_nonnil as Hnn.
  destruct n as [| p | p].
  - reflexivity.
  - change (Z.pos p <? 0) with false. cbv iota.
    change (Z.abs (Z.pos p)) with (Z.pos p). rewrite string_of_Z_pos.
    unfold amount_of_input.
    destruct (string_of_uint_digit_head _ (Hnn p)) as (c & s & Hs & _).
    replace (String.eqb ("" ++ NilEmpty.string_of_uint (Pos.to_uint p)) "")
      with false by (rewrite Hs; reflexivity).
    rewrite (parseFloat_numeral false _ (Hnn p)), digits_value_to_uint.
    reflexivity.
  - change (Z.neg p <? 0) with true. cbv iota.
    change (Z.abs (Z.neg p)) with (Z.pos p). rewrite string_of_Z_pos.
    unfold amount_of_input.
    replace (String.eqb ("-" ++ NilEmpty.string_of_uint (Pos.to_uint p)) "")
      with false by reflexivity.
    rewrite (parseFloat_numeral true _ (Hnn p)), digits_value_to_uint.
    reflexivity.
Qed.

Lemma useEffect_input_agrees (x : number) :
  safeInteger x ->
  amount_of_input (if truthy x then V8.numberToString x else "") = x.
Proof.
  intros (n & -> & _).
  destruct (truthy (of_Z n)) eqn:Ht.
  - apply amount_of_printed_integer.
  - unfold amount_of_input. simpl.
    destruct n; try discriminate Ht. reflexivity.
Qed.

Lemma safeInteger_zero : safeInteger zero.
Proof. exists 0. split; [reflexivity | simpl; lia]. Qed.

Lemma useEffect_inputsAgree (tza t : Z) (p : Props) (s : State) :
  (forall r, initialRecord p = Some r -> safeAmounts r) ->
  inputsAgree (useEffect (V8.runtime tza) t p s).
Proof.
  intros Hp. unfold useEffect, inputsAgree. simpl.
  destruct (initialRecord p) as [r |].
  - destruct (Hp r eq_refl) as (Hb & Ha & Hd).
    repeat split; now apply useEffect_input_agrees.
  - repeat split.
Qed.

(** X21.  Under V8, when every record the caller supplies has integral
    amounts of magnitude at most 2^53, the text in each monetary input
    always parses to the amount the draft holds for it: after a reset the
    input shows the amount (or is blank for zero), and after a keystroke
    the draft holds what the text parses to. *)
Theorem amount_inputs_agree_with_draft
    (tza : Z) (p : Props) (t : Z) (es : list Event) :
  (forall r, initialRecord p = Some r -> safeAmounts r) ->
  Forall suppliesSafeAmounts es ->
  inputsAgree (state (fst (run (V8.runtime tza)
                               (mount (V8.runtime tza) p t) es))).
Proof.
  intros Hp Hes.
  pose (I := fun m : Model =>
               inputsAgree (state m)
               /\ (forall r, initialRecord (props m) = Some r ->
                   safeAmounts r)).
  destruct (run_invariant (V8.runtime tza) I suppliesSafeAmounts
                          (fun _ => True))
    with (es := es) (m := mount (V8.runtime tza) p t) as [[HI _] _]; auto.
  - intros m e [Hm Hprops] He. unfold I.
    destruct e as [o es' c | | | | | | | | |]; simpl;
      try (split; assumption);
      try (destruct (isOpen (props m)); simpl; split; try assumption;
           destruct Hm as (Hb & Ha & Hd); repeat split; assumption).
    + assert (Hp' : forall r, initialRecord (newProps (props m) o es' c)
                              = Some r -> safeAmounts r).
      { destruct c as [| [r |]]; simpl in *; try assumption.
        - now intros r0 [= <-].
        - discriminate. }
      split; [| exact Hp'].
      destruct (depsChanged (props m) o c); [| assumption].
      now apply useEffect_inputsAgree.
    + destruct (isOpen (props m)); simpl; [| split; assumption].
      destruct (saveDisabled (state m)); split; assumption.
  - unfold I. split; [| exact Hp]. now apply useEffect_inputsAgree.
Qed.

Lemma amount_inputs_agree_with_draft_witness :
  inputsAgree (state (fst (run (V8.runtime 0)
                               (mount (V8.runtime 0)
                                      (Examples.editing Examples.sound)
                                      Examples.clock)
                               [DeductionsChange "12.5";
                                BasicChange "abc"]))).
Proof.
  apply (amount_inputs_agree_with_draft 0
           (Examples.editing Examples.sound) Examples.clock
           [DeductionsChange "12.5"; BasicChange "abc"]).
  - intros r [= <-].
    repeat split;
      [exists 5000 | exists 200 | exists 100];
      (split; [reflexivity | simpl; lia]).
  - repeat constructor.
Defined.

(** ** Consistency after a keystroke *)

Lemma step_netConsistent_no_rerender (rt : Runtime) (m : Model) (e : Event) :
  netConsistent (record (state m)) ->
  notRerender e ->
  netConsistent (record (state (fst (step rt m e)))).
Proof.
  intros Hd He.
  destruct e; simpl in *; try tauto; try assumption;
    try (destruct (isOpen (props m)); simpl; try assumption;
         apply num_eq_refl).
  destruct (isOpen (props m)); simpl; [| assumption].
  destruct (saveDisabled (state m)); assumption.
Qed.

(** X22.  One keystroke in a monetary input repairs the net salary: while
    the dialog is open, after such a keystroke and any further input
    events (no re-render by the caller), every record handed to onSave has
    netSalary equal to max(0, basicSalary + allowances - deductions),
    whatever net salary the draft carried before. *)
Theorem keystroke_makes_saves_consistent
    (rt : Runtime) (m : Model) (e : Event) (es : list Event)
    (r : PayrollRecord) :
  isOpen (props m) = true ->
  amountEdit e ->
  Forall notRerender es ->
  In (onSave r) (snd (run rt m (e :: es))) ->
  netConsistent r.
Proof.
  intros Hopen He Hes Hin.
  assert (Hfirst : netConsistent (record (state (fst (step rt m e))))
                   /\ snd (step rt m e) = []).
  { destruct e; simpl in He; try tauto; simpl; rewrite Hopen; simpl;
      (split; [apply num_eq_refl | reflexivity]). }
  destruct Hfirst as [Hcons Hout].
  simpl in Hin. destruct (step rt m e) as [m1 o1]. simpl in *. subst o1.
  destruct (run_invariant rt (fun m => netConsistent (record (state m)))
                          notRerender netConsistent)
    with (es := es) (m := m1) as [_ Hsaves]; auto.
  - intros m' e'. apply step_netConsistent_no_rerender.
  - intros m' e' r' Hd _ Hsave.
    apply step_onSave in Hsave as (_ & _ & _ & Hsave).
    apply onSaveClick_onSave in Hsave as (_ & _ & ->). exact Hd.
  - destruct (run rt m1 es) as [m2 o2]. simpl in *. now apply Hsaves.
Qed.

Lemma keystroke_makes_saves_consistent_witness :
  netConsistent (with_deductions (of_Z 300) (of_Z 4900) Examples.stale).
Proof.
  apply (keystroke_makes_saves_consistent Examples.utc
           (mount Examples.utc (Examples.editing Examples.stale)
                  Examples.clock)
           (DeductionsChange "300") [SaveClick]).
  - reflexivity.
  - exact I.
  - repeat constructor.
  - vm_compute. left. reflexivity.
Defined.

(** ** The two conversions composed *)

(** X23.  The round trip of a month value through both conversions, in a
    runtime whose [new Date] reads the label of a month as local midnight
    of its first day (as engines read "September 2025"): for a year from
    100 on and a month from 1 to 12, the reverse conversion of the label
    gives back the same year and month when local time is UTC or behind
    it, and the month before when local time is ahead of UTC.  The year
    comes back without leading zeros. *)
Theorem roundtrip_depends_on_the_zone
    (rt : Runtime) (t : Z) (ym : string) (y m tv : Z) :
  map parseInt (split "-" ym) = [Some y; Some m] ->
  100 <= y -> 1 <= m <= 12 ->
  Date_UTC y (m - 1) 1 = Some tv ->
  parseDate rt (formatMonthYear rt y (m - 1))
  = Some (MakeDate (MakeDay y (m - 1) 1) 0 - LocalTZA rt) ->
  (- msPerDay < LocalTZA rt <= 0 ->
   ymFromLabel rt (labelFromYm rt t ym)
   = string_of_Z y ++ "-" ++ padStart 2 "0" (string_of_Z m))
  /\ (0 < LocalTZA rt <= msPerDay ->
      ymFromLabel rt (labelFromYm rt t ym)
      = string_of_Z (if m =? 1 then y - 1 else y) ++ "-"
        ++ padStart 2 "0" (string_of_Z (if m =? 1 then 12 else m - 1))).
Proof.
  intros Hparts Hy Hm Htv Hparse.
  rewrite (labelFromYm_valid rt t ym y m tv Hparts Hy Hm Htv).
  destruct (ymFromLabel_local_midnight rt _ y (m - 1) ltac:(lia) Hparse)
    as [Hwest Heast].
  split; intros Htz.
  - rewrite (Hwest Htz). now replace (m - 1 + 1) with m by lia.
  - rewrite (Heast Htz).
    destruct (Z.eqb_spec (m - 1) 0), (Z.eqb_spec m 1); try lia.
    + reflexivity.
    + now replace (m - 1 - 1 + 1) with (m - 1) by lia.
Qed.

Lemma roundtrip_depends_on_the_zone_witness :
  ymFromLabel Examples.ist (labelFromYm Examples.ist Examples.clock "2025-01")
  = "2024-12"
  /\ ymFromLabel Examples.utc
                 (labelFromYm Examples.utc Examples.clock "2025-01")
     = "2025-01".
Proof.
  split.
  - pose proof (roundtrip_depends_on_the_zone Examples.ist Examples.clock
                  "2025-01" 2025 1 1735689600000 eq_refl ltac:(lia)
                  ltac:(lia) eq_refl eq_refl) as [_ Heast].
    rewrite Heast; [reflexivity | vm_compute; split; congruence].
  - pose proof (roundtrip_depends_on_the_zone Examples.utc Examples.clock
                  "2025-01" 2025 1 1735689600000 eq_refl ltac:(lia)
                  ltac:(lia) eq_refl eq_refl) as [Hwest _].
    rewrite Hwest; [reflexivity | vm_compute; split; congruence].
Defined.
